(** * Schema migration engine: splitter, validator, accumulator, executor

    A shallow embedding of [splitSQLStatements], [validateSQL],
    [extractTableName] and [ApplyMigration] of the migration runner
    (package [supabase]), with the properties of the engine proved
    about it.

    Representation.  A Go string that holds text is represented by its
    rune sequence, the value of [[]rune(s)]: the splitter works on that
    sequence and writes runes back with [WriteRune], and the [strings]
    functions the program calls ([TrimSpace], [ToUpper], [Fields],
    [HasPrefix], [Contains], [Index], [TrimSuffix], [Trim]) decode runes
    as well.  The one byte-level operation of the program, the excerpt
    [stmt[:min(len(stmt), 100)]], is taken on the UTF-8 encoding of the
    rune sequence.  Messages built by [fmt] are byte strings ([string]). *)

From Stdlib Require Import List Bool Arith NArith ZArith Lia.
From Stdlib Require Import Strings.Ascii Strings.String Numbers.DecimalString.
Import ListNotations.

Set Implicit Arguments.

(* ================================================================== *)
(** * Runes and text *)
(* ================================================================== *)

Module Text.

Local Open Scope N_scope.

Definition rune := N.
Definition Str := list rune.

(** [[]rune(s)] for a literal [s] made of ASCII bytes. *)
Definition runes (s : string) : Str := map N_of_ascii (list_ascii_of_string s).

Definition r_dollar : rune := 36.   (* '$'  *)
Definition r_quote : rune := 39.    (* '\'' *)
Definition r_lparen : rune := 40.   (* '('  *)
Definition r_dash : rune := 45.     (* '-'  *)
Definition r_dot : rune := 46.      (* '.'  *)
Definition r_semi : rune := 59.     (* ';'  *)
Definition r_newline : rune := 10.  (* '\n' *)
Definition r_dquote : rune := 34.   (* the double quote *)
Definition r_underscore : rune := 95.

Definition Str_eqb (a b : Str) : bool :=
  if list_eq_dec N.eq_dec a b then true else false.

Definition isEmpty (s : Str) : bool :=
  match s with [] => true | _ :: _ => false end.

(** [unicode.IsSpace]: the Latin-1 cases of the switch, then the
    White_Space ranges above Latin-1. *)
Definition IsSpace (r : rune) : bool :=
  (if r <=? 255 then
     (r =? 9) || (r =? 10) || (r =? 11) || (r =? 12) || (r =? 13)
     || (r =? 32) || (r =? 133) || (r =? 160)
   else
     (r =? 5760) || ((8192 <=? r) && (r <=? 8202)) || (r =? 8232)
     || (r =? 8233) || (r =? 8239) || (r =? 8287) || (r =? 12288))%N.

Fixpoint dropWhile (p : rune -> bool) (s : Str) : Str :=
  match s with
  | [] => []
  | c :: s' => if p c then dropWhile p s' else s
  end.

Definition dropWhileEnd (p : rune -> bool) (s : Str) : Str :=
  rev (dropWhile p (rev s)).

(** [strings.TrimSpace]: [TrimRightFunc (TrimLeftFunc s IsSpace) IsSpace]. *)
Definition TrimSpace (s : Str) : Str :=
  dropWhileEnd IsSpace (dropWhile IsSpace s).

(** [strings.Trim s cutset] for a cutset of one rune. *)
Definition Trim1 (s : Str) (c : rune) : Str :=
  dropWhileEnd (N.eqb c) (dropWhile (N.eqb c) s).

(** [strings.HasPrefix]. *)
Fixpoint HasPrefix (s p : Str) {struct p} : bool :=
  match p, s with
  | [], _ => true
  | _ :: _, [] => false
  | a :: p', b :: s' => (a =? b)%N && HasPrefix s' p'
  end.

(** [strings.Contains]. *)
Fixpoint Contains (s sub : Str) : bool :=
  HasPrefix s sub ||
  match s with
  | [] => false
  | _ :: s' => Contains s' sub
  end.

(** [strings.Index s "c"] for a one-rune needle, counted in runes;
    [None] stands for -1.  The byte index Go returns is positive
    exactly when this one is, and slicing after it drops the same runes. *)
Fixpoint IndexRune (s : Str) (c : rune) : option nat :=
  match s with
  | [] => None
  | x :: s' =>
      if (x =? c)%N then Some 0%nat
      else match IndexRune s' c with
           | Some n => Some (S n)
           | None => None
           end
  end.

(** [strings.TrimSuffix s "c"] for a one-rune suffix. *)
Definition TrimSuffix1 (s : Str) (c : rune) : Str :=
  match rev s with
  | x :: r => if (x =? c)%N then rev r else s
  | [] => s
  end.

(** [strings.Fields]: the maximal runs of non-space runes, in order. *)
Fixpoint fieldsFrom (cur : Str) (s : Str) : list Str :=
  match s with
  | [] => if isEmpty cur then [] else [rev cur]
  | c :: s' =>
      if IsSpace c
      then (if isEmpty cur then fieldsFrom [] s' else rev cur :: fieldsFrom [] s')
      else fieldsFrom (c :: cur) s'
  end.

Definition Fields (s : Str) : list Str := fieldsFrom [] s.

Section CaseTable.

(** [unicode.To(UpperCase, r)] for runes above ASCII: the case table
    of the Go runtime, not part of the program. *)
Variable upperTable : rune -> rune.

(** [unicode.ToUpper]. *)
Definition toUpperRune (r : rune) : rune :=
  (if r <=? 127 then
     if (97 <=? r) && (r <=? 122) then r - 32 else r
   else upperTable r)%N.

(** [strings.ToUpper]. *)
Definition ToUpper (s : Str) : Str := map toUpperRune s.

End CaseTable.

(** UTF-8 encoding of one rune, as [utf8.AppendRune] writes it: surrogates
    and values above [MaxRune] are written as [RuneError]. *)
Definition byteN (n : N) : ascii := ascii_of_N (n mod 256).

Definition encode3 (r : rune) : list ascii :=
  [byteN (224 + r / 4096); byteN (128 + (r / 64) mod 64); byteN (128 + r mod 64)]%N.

Definition encodeRune (r : rune) : list ascii :=
  (if r <=? 127 then [byteN r]
   else if r <=? 2047 then [byteN (192 + r / 64); byteN (128 + r mod 64)]
   else if (1114111 <? r) || ((55296 <=? r) && (r <=? 57343)) then encode3 65533
   else if r <=? 65535 then encode3 r
   else [byteN (240 + r / 262144); byteN (128 + (r / 4096) mod 64);
         byteN (128 + (r / 64) mod 64); byteN (128 + r mod 64)])%N.

(** The Go string whose rune sequence is [s]. *)
Definition GoString (s : Str) : string :=
  string_of_list_ascii (flat_map encodeRune s).

End Text.

Import Text.

(* ================================================================== *)
(** * The statement splitter: [splitSQLStatements] *)
(* ================================================================== *)

Module Splitter.

Local Open Scope N_scope.

(** The local variables of [splitSQLStatements]; [buf] is the content of
    the [bytes.Buffer], as runes. *)
Record Scanner := mkScanner {
  statements : list Str;
  buf : Str;
  inString : bool;
  inComment : bool;
  inDollarQuote : bool;
  dollarQuoteTag : Str
}.

Definition initial : Scanner := mkScanner [] [] false false false [].

Definition setDollar (st : Scanner) (b : bool) (tag : Str) : Scanner :=
  mkScanner (statements st) (buf st) (inString st) (inComment st) b tag.

Definition setComment (st : Scanner) (b : bool) : Scanner :=
  mkScanner (statements st) (buf st) (inString st) b
            (inDollarQuote st) (dollarQuoteTag st).

Definition setString (st : Scanner) (b : bool) : Scanner :=
  mkScanner (statements st) (buf st) b (inComment st)
            (inDollarQuote st) (dollarQuoteTag st).

(** [buf.WriteRune(c)]. *)
Definition write (st : Scanner) (c : rune) : Scanner :=
  mkScanner (statements st) (buf st ++ [c]) (inString st) (inComment st)
            (inDollarQuote st) (dollarQuoteTag st).

(** The trimmed buffer, appended to the statements when it is not empty. *)
Definition emit (stmts : list Str) (b : Str) : list Str :=
  let stmt := TrimSpace b in
  if isEmpty stmt then stmts else stmts ++ [stmt].

(** The body of the semicolon branch: emit, then [buf.Reset()]. *)
Definition flush (st : Scanner) : Scanner :=
  mkScanner (emit (statements st) (buf st)) [] (inString st) (inComment st)
            (inDollarQuote st) (dollarQuoteTag st).

(** The condition of the [tagEnd] loop. *)
Definition isTagRune (r : rune) : bool :=
  (r =? r_underscore) || ((97 <=? r) && (r <=? 122))
  || ((65 <=? r) && (r <=? 90)) || ((48 <=? r) && (r <=? 57)).

(** The [tagEnd] loop on [runes[i+1:]]: the runes it steps over and the
    input from [runes[tagEnd]] on. *)
Fixpoint tagRun (rest : Str) : Str * Str :=
  match rest with
  | c :: rest' =>
      if isTagRune c
      then let (t, r) := tagRun rest' in (c :: t, r)
      else ([], rest)
  | [] => ([], [])
  end.

(** [tagEnd < len(runes) && runes[tagEnd] == '$'], with the value of
    [string(runes[i:tagEnd+1])] when it holds ([runes[i]] is ['$']). *)
Definition matchTag (rest : Str) : option Str :=
  let (t, after) := tagRun rest in
  match after with
  | c :: _ => if c =? r_dollar then Some (r_dollar :: t ++ [r_dollar]) else None
  | [] => None
  end.

(** [i+1 < len(runes) && runes[i+1] == c]. *)
Definition nextIs (rest : Str) (c : rune) : bool :=
  match rest with
  | x :: _ => x =? c
  | [] => false
  end.

(** Dollar-quoted strings (first block of the loop body). *)
Definition dollarBlock (st : Scanner) (char : rune) (rest : Str) : Scanner :=
  if (char =? r_dollar) && negb (inString st) && negb (inComment st) then
    match matchTag rest with
    | Some tag =>
        if negb (inDollarQuote st) then setDollar st true tag
        else if Str_eqb tag (dollarQuoteTag st) then setDollar st false []
        else st
    | None => st
    end
  else st.

(** Single-line comments (second block). *)
Definition commentBlock (st : Scanner) (char : rune) (rest : Str) : Scanner :=
  if negb (inString st) && negb (inDollarQuote st) then
    if inComment st then
      (if char =? r_newline then setComment st false else st)
    else
      (if (char =? r_dash) && nextIs rest r_dash then setComment st true else st)
  else st.

(** One iteration of the loop at [char = runes[i]], [rest = runes[i+1:]].
    The boolean tells that the iteration did [i++] itself (the escaped
    quote), so that the loop resumes two runes further. *)
Definition step (st : Scanner) (char : rune) (rest : Str) : Scanner * bool :=
  let st1 := dollarBlock st char rest in
  let st2 := commentBlock st1 char rest in
  let atQuote := negb (inComment st2) && negb (inDollarQuote st2) && (char =? r_quote) in
  let escaped :=
    if atQuote && inString st2 && nextIs rest r_quote
    then match rest with
         | c2 :: _ => Some (write (write st2 char) c2)
         | [] => None
         end
    else None in
  match escaped with
  | Some st' => (st', true)
  | None =>
      let st3 := if atQuote then setString st2 (negb (inString st2)) else st2 in
      if (char =? r_semi) && negb (inString st3) && negb (inComment st3)
         && negb (inDollarQuote st3)
      then (flush st3, false)
      else (write st3 char, false)
  end.

(** The [for] loop from position [i] on, [rs = runes[i:]]. *)
Fixpoint scan (st : Scanner) (rs : Str) : Scanner :=
  match rs with
  | [] => st
  | char :: rest =>
      match step st char rest with
      | (st', false) => scan st' rest
      | (st', true) =>
          match rest with
          | _ :: rest2 => scan st' rest2
          | [] => st'
          end
      end
  end.

(** The code after the loop: the remaining statement. *)
Definition finish (st : Scanner) : list Str :=
  if isEmpty (buf st) then statements st
  else emit (statements st) (buf st).

Definition splitSQLStatements (sql : Str) : list Str :=
  finish (scan initial sql).

(** The configurations one run of the loop goes through on [sql]: the
    variables before an iteration and the input from that position on. *)
Inductive Reach (sql : Str) : Scanner -> Str -> Prop :=
| reach_start : Reach sql initial sql
| reach_next st char rest st' :
    Reach sql st (char :: rest) -> step st char rest = (st', false) ->
    Reach sql st' rest
| reach_skip st char c2 rest st' :
    Reach sql st (char :: c2 :: rest) -> step st char (c2 :: rest) = (st', true) ->
    Reach sql st' rest.

(** The mode of the tokenizer: no flag set. *)
Definition normal (st : Scanner) : bool :=
  negb (inString st) && negb (inComment st) && negb (inDollarQuote st).

(** A statement as the splitter emits it: not empty, nothing to trim. *)
Definition trimmed (s : Str) : Prop := s <> [] /\ TrimSpace s = s.

(** At most one of the three flags is set. *)
Definition exclusive (st : Scanner) : bool :=
  match inString st, inComment st, inDollarQuote st with
  | true, true, _ | true, _, true | _, true, true => false
  | _, _, _ => true
  end.

End Splitter.

Import Splitter.

(* ================================================================== *)
(** * Validator and accumulator: [validateSQL], [extractTableName] *)
(* ================================================================== *)

Module Validator.

Local Open Scope string_scope.

(** The denylist of [validateSQL]. *)
Definition dangerous : list string :=
  ["DROP DATABASE"; "DROP SCHEMA"; "TRUNCATE DATABASE"].

Definition emptyMessage : string := "SQL cannot be empty".

Definition dangerMessage (danger : string) : string :=
  "dangerous operation detected: " ++ danger.

(** The [for _, danger := range dangerous] loop: the first entry the
    upper-cased script contains. *)
Fixpoint firstDanger (upperSQL : Str) (ds : list string) : option string :=
  match ds with
  | [] => None
  | danger :: ds' =>
      if Contains upperSQL (runes danger) then Some danger
      else firstDanger upperSQL ds'
  end.

Section WithTable.
Variable upperTable : rune -> rune.

(** [validateSQL]: [None] is the nil error, [Some msg] an error with
    that message. *)
Definition validateSQL (sql : Str) : option string :=
  let sql := TrimSpace sql in
  if isEmpty sql then Some emptyMessage
  else
    let upperSQL := ToUpper upperTable sql in
    match firstDanger upperSQL dangerous with
    | Some danger => Some (dangerMessage danger)
    | None => None
    end.
End WithTable.

End Validator.

Module Accumulator.

Section WithTable.
Variable upperTable : rune -> rune.

(** The tail of the loop body of [extractTableName], on the candidate
    token: schema prefix, trailing parenthesis, quotes. *)
Definition cleanName (tableName : Str) : Str :=
  let tableName :=
    match IndexRune tableName r_dot with
    | Some (S idx') => skipn (S (S idx')) tableName   (* idx > 0: tableName[idx+1:] *)
    | _ => tableName
    end in
  let tableName := TrimSuffix1 tableName r_lparen in
  Trim1 tableName r_dquote.

(** The token after its last dot, and the name the specification
    describes for a candidate token: the prefix up to and including the
    last dot dropped, then a trailing parenthesis, then the quotes. *)
Definition afterLastDot (tok : Str) : Str :=
  match IndexRune (rev tok) r_dot with
  | Some n => skipn (List.length tok - n) tok
  | None => tok
  end.

Definition specCleanName (tok : Str) : Str :=
  Trim1 (TrimSuffix1 (afterLastDot tok) r_lparen) r_dquote.

(** The name as the specification words the whole procedure: the two
    keywords skipped, three more tokens skipped when the next token is
    IF, the following token taken and cleaned. *)
Definition specTableName (stmt : Str) : Str :=
  match Fields stmt with
  | _ :: _ :: tok :: after =>
      if Str_eqb (ToUpper upperTable tok) (runes "IF") then
        match after with
        | _ :: _ :: name :: _ => specCleanName name
        | _ => []
        end
      else specCleanName tok
  | _ => []
  end.

(** The [for i, part := range parts] loop from index [i] on,
    [parts = parts[i:]]. *)
Fixpoint tableLoop (parts : list Str) : Str :=
  match parts with
  | [] => []
  | part :: after =>
      if Str_eqb (ToUpper upperTable part) (runes "TABLE") then
        match after with
        | tableName :: _ =>
            if Str_eqb (ToUpper upperTable tableName) (runes "IF") then
              match nth_error after 3 with          (* parts[i+4] *)
              | Some t => cleanName t
              | None => tableLoop after             (* continue *)
              end
            else cleanName tableName
        | [] => tableLoop after                     (* i+1 = len(parts) *)
        end
      else tableLoop after
  end.

Definition extractTableName (stmt : Str) : Str :=
  let upperStmt := ToUpper upperTable (TrimSpace stmt) in
  if negb (HasPrefix upperStmt (runes "CREATE TABLE")) then []
  else tableLoop (Fields stmt).

(** Go's [int] on the 64-bit targets of the program. *)
Definition wrapInt (z : Z) : Z :=
  ((z + 9223372036854775808) mod 18446744073709551616 - 9223372036854775808)%Z.

(** The two tracking blocks of the loop of [ApplyMigration], after a
    statement ran: [rows] is what [RowsAffected] returned. *)
Definition trackRows (stmt : Str) (rows : Z) (totalRowsInserted : Z) : Z :=
  if HasPrefix (ToUpper upperTable stmt) (runes "INSERT")
  then wrapInt (totalRowsInserted + rows)
  else totalRowsInserted.

Definition trackTables (stmt : Str) (tablesCreated : list Str) : list Str :=
  if HasPrefix (ToUpper upperTable stmt) (runes "CREATE TABLE") then
    let tableName := extractTableName stmt in
    if isEmpty tableName then tablesCreated else tablesCreated ++ [tableName]
  else tablesCreated.
End WithTable.

End Accumulator.

Import Validator Accumulator.

(* ================================================================== *)
(** * The database behind [database/sql] *)
(* ================================================================== *)

(** The connection the runner owns, as the program sees it through
    [db.Begin], [tx.Exec], [tx.Commit] and [tx.Rollback]: committed
    contents, the working contents of the open transaction, and the calls
    made so far.  What a statement does to the contents, and whether
    [Begin] and [Commit] fail, is the server's business and stays a
    parameter.  A failed [Commit] and a [Rollback] leave the committed
    contents as they were. *)
Module Database.

Inductive Call :=
| CallBegin
| CallExec (stmt : Str)
| CallCommit
| CallRollback.

Inductive ExecOutcome (St : Type) :=
| ExecOk (contents : St) (rows : Z)
| ExecErr (msg : string).

Arguments ExecErr {St} msg.

Record Server := mkServer {
  St : Type;
  serverExec : St -> Str -> ExecOutcome St;
  beginFails : St -> option string;
  commitFails : St -> option string
}.

Section Conn.
Variable srv : Server.

Record Conn := mkConn {
  durable : St srv;
  tx : option (St srv);
  calls : list Call
}.

Definition txDone : string := "sql: transaction has already been committed or rolled back".

(** [mr.db.Begin()]. *)
Definition dbBegin (c : Conn) : option string * Conn :=
  match beginFails srv (durable c) with
  | Some e => (Some e, mkConn (durable c) (tx c) (calls c ++ [CallBegin]))
  | None => (None, mkConn (durable c) (Some (durable c)) (calls c ++ [CallBegin]))
  end.

(** [tx.Exec(stmt)] with [RowsAffected] of its result. *)
Definition txExec (stmt : Str) (c : Conn) : (string + Z) * Conn :=
  let log := calls c ++ [CallExec stmt] in
  match tx c with
  | Some w =>
      match serverExec srv w stmt with
      | ExecOk w' rows => (inr rows, mkConn (durable c) (Some w') log)
      | ExecErr e => (inl e, mkConn (durable c) (Some w) log)
      end
  | None => (inl txDone, mkConn (durable c) None log)
  end.

(** [tx.Commit()]. *)
Definition txCommit (c : Conn) : option string * Conn :=
  let log := calls c ++ [CallCommit] in
  match tx c with
  | Some w =>
      match commitFails srv w with
      | Some e => (Some e, mkConn (durable c) None log)
      | None => (None, mkConn w None log)
      end
  | None => (Some txDone, mkConn (durable c) None log)
  end.

(** [tx.Rollback()]; its error is dropped by the caller. *)
Definition txRollback (c : Conn) : Conn :=
  mkConn (durable c) None (calls c ++ [CallRollback]).

(** A connection with no transaction in flight. *)
Definition idle (contents : St srv) : Conn := mkConn contents None [].
End Conn.

End Database.

Import Database.

(* ================================================================== *)
(** * The executor: [ApplyMigration] *)
(* ================================================================== *)

Module Executor.

Local Open Scope string_scope.

Record MigrationResult := mkResult {
  Success : bool;
  TablesCreated : list Str;
  RowsInserted : Z;
  ExecutionTime : Z;
  Error : string;
  StatementsRun : Z
}.

Definition setError (r : MigrationResult) (msg : string) : MigrationResult :=
  mkResult (Success r) (TablesCreated r) (RowsInserted r) (ExecutionTime r)
           msg (StatementsRun r).

Definition setStatementsRun (r : MigrationResult) (n : Z) : MigrationResult :=
  mkResult (Success r) (TablesCreated r) (RowsInserted r) (ExecutionTime r)
           (Error r) n.

(** The [%d] verb on a non-negative index. *)
Definition decimal (n : nat) : string := NilEmpty.string_of_uint (Nat.to_uint n).

Definition newline : string := String (ascii_of_nat 10) EmptyString.

(** [stmt[:min(len(stmt), 100)]]: the first 100 bytes of the statement. *)
Definition excerpt (stmt : Str) : string :=
  let s := GoString stmt in
  substring 0 (Nat.min (String.length s) 100) s.

(** The two messages of a failed statement, [i] the loop index. *)
Definition stmtFailedMessage (i : nat) (err : string) (stmt : Str) : string :=
  "statement " ++ decimal (i + 1) ++ " failed: " ++ err ++ newline
  ++ "Statement: " ++ excerpt stmt.

Definition stmtFailedError (i : nat) (err : string) : string :=
  "failed to execute statement " ++ decimal (i + 1) ++ ": " ++ err.

(** How the statement loop is left. *)
Inductive LoopExit :=
| Returned (result : MigrationResult) (err : string)
| Completed (tablesCreated : list Str) (totalRowsInserted : Z).

Section WithServer.
Variable upperTable : rune -> rune.
Variable srv : Server.
(** [time.Since(startTime)] where the program reads it. *)
Variable elapsed : Z.

(** [for i, stmt := range statements], from index [i] on. *)
Fixpoint execLoop (result : MigrationResult) (i : nat) (stmts : list Str)
         (tablesCreated : list Str) (totalRowsInserted : Z) (c : Conn srv)
  : LoopExit * Conn srv :=
  match stmts with
  | [] => (Completed tablesCreated totalRowsInserted, c)
  | s :: more =>
      let stmt := TrimSpace s in
      if isEmpty stmt
      then execLoop result (S i) more tablesCreated totalRowsInserted c
      else
        match txExec stmt c with
        | (inl err, c') =>
            (Returned (setError result (stmtFailedMessage i err stmt))
                      (stmtFailedError i err), c')
        | (inr rows, c') =>
            let total := trackRows upperTable stmt rows totalRowsInserted in
            let tables := trackTables upperTable stmt tablesCreated in
            execLoop result (S i) more tables total c'
        end
  end.

(** What the server makes of [stmts] run in order on contents [w], with
    the tallies the loop keeps: the contents and tallies after the last
    statement, or nothing when one of them fails. *)
Fixpoint runAll (w : St srv) (stmts : list Str)
         (tablesCreated : list Str) (totalRowsInserted : Z)
  : option (St srv * list Str * Z) :=
  match stmts with
  | [] => Some (w, tablesCreated, totalRowsInserted)
  | s :: more =>
      match serverExec srv w s with
      | ExecOk w' rows =>
          runAll w' more (trackTables upperTable s tablesCreated)
                 (trackRows upperTable s rows totalRowsInserted)
      | ExecErr _ => None
      end
  end.

(** [ApplyMigration]: the result, the error ([None] is nil) and the
    connection afterwards. *)
Definition ApplyMigration (sqlScript : Str) (c : Conn srv)
  : (MigrationResult * option string) * Conn srv :=
  let result := mkResult false [] 0 0 EmptyString 0 in
  match validateSQL upperTable sqlScript with
  | Some err =>
      ((setError result ("SQL validation failed: " ++ err), Some err), c)
  | None =>
      let statements := splitSQLStatements sqlScript in
      let result := setStatementsRun result (Z.of_nat (List.length statements)) in
      match dbBegin c with
      | (Some err, c1) =>
          ((setError result ("failed to begin transaction: " ++ err), Some err), c1)
      | (None, c1) =>
          let '(out, c2) :=
            match execLoop result 0 statements [] 0 c1 with
            | (Returned res err, c2) => ((res, Some err), c2)
            | (Completed tablesCreated totalRowsInserted, c2) =>
                match txCommit c2 with
                | (Some err, c3) =>
                    ((setError result ("failed to commit transaction: " ++ err),
                      Some err), c3)
                | (None, c3) =>
                    ((mkResult true tablesCreated totalRowsInserted elapsed
                               (Error result) (StatementsRun result), None), c3)
                end
            end in
          (* the deferred function *)
          if negb (Success (fst out)) then (out, txRollback c2) else (out, c2)
      end
  end.
End WithServer.

End Executor.

Import Executor.

(** A server for the examples: contents are the statements applied so
    far, every statement reports one affected row, and the statement
    [BOGUS] is refused. *)
Definition demoServer : Server :=
  mkServer (fun (applied : list Str) stmt =>
              if Str_eqb stmt (runes "BOGUS") then ExecErr "syntax error"
              else ExecOk (applied ++ [stmt]) 1)
           (fun _ => None) (fun _ => None).

(** A case table for the examples: no rune above ASCII has an upper case. *)
Definition plainTable : rune -> rune := fun r => r.

(* ================================================================== *)
(** * Reference splitting, for scripts without quotes and comments *)
(* ================================================================== *)

Module PlainSplit.

Local Open Scope N_scope.

(** A script in which nothing can start a dollar quote, a string or a
    comment: no dollar, no quote, no dash followed by a dash. *)
Fixpoint plainScript (s : Str) : bool :=
  match s with
  | [] => true
  | c :: rest =>
      negb (c =? r_dollar) && negb (c =? r_quote)
      && negb ((c =? r_dash) && nextIs rest r_dash)
      && plainScript rest
  end.

(** The pieces of [s] between separators, [cur] being the piece in
    progress. *)
Fixpoint splitOn (sep : rune) (cur : Str) (s : Str) : list Str :=
  match s with
  | [] => [cur]
  | c :: rest =>
      if c =? sep then cur :: splitOn sep [] rest
      else splitOn sep (cur ++ [c]) rest
  end.

(** Cut at every semicolon, trim the pieces, drop the empty ones. *)
Definition naiveSplit (sql : Str) : list Str :=
  filter (fun s => negb (isEmpty s)) (map TrimSpace (splitOn r_semi [] sql)).


(** Along a run: the buffer is the piece of the script just before the
    position, every statement is a piece of the script, and there are no
    more statements than semicolons passed. *)
Definition runInvariant (sql : Str) (st : Scanner) (rest : Str) : Prop :=
  (exists before, sql = before ++ buf st ++ rest)
  /\ Forall (fun s => exists pre post, sql = pre ++ s ++ post) (statements st)
  /\ (List.length (statements st) + count_occ N.eq_dec rest r_semi
      <= count_occ N.eq_dec sql r_semi)%nat.


(** A token without white space. *)
Definition spaceFree (t : Str) : Prop := Forall (fun r => IsSpace r = false) t.

(** The tallies the loop keeps: names that are not empty and hold no
    white space, and a row count in the range of [int]. *)
Definition goodTallies (tables : list Str) (total : Z) : Prop :=
  Forall (fun t => t <> [] /\ spaceFree t) tables
  /\ (- 9223372036854775808 <= total < 9223372036854775808)%Z.

End PlainSplit.

Import PlainSplit.

(* ================================================================== *)
(** * Projects and their connection strings (types.go) *)
(* ================================================================== *)

Module Projects.

Local Open Scope string_scope.

(** The test that a Go string is not the empty string. *)
Definition nonEmpty (s : string) : bool :=
  match s with
  | EmptyString => false
  | String _ _ => true
  end.

Record Project := mkProject {
  ID : string;
  OrganizationID : string;
  Name : string;
  Region : string;
  Status : string;
  CreatedAt : Z;
  DatabaseHost : string;
  DatabaseURL : string;
  DBPassword : string;
  ProjectRef : string;
  Endpoint : string;
  AnonKey : string;
  ServiceKey : string
}.

Definition GetProjectURL (p : Project) : string :=
  if nonEmpty (Endpoint p) then Endpoint p
  else if nonEmpty (ProjectRef p) then "https://" ++ ProjectRef p ++ ".supabase.co"
  else EmptyString.

Definition GetDatabaseConnectionString (p : Project) : string :=
  if nonEmpty (DatabaseURL p) then DatabaseURL p
  else if nonEmpty (ProjectRef p) && nonEmpty (DBPassword p) && nonEmpty (Region p) then
    "postgresql://postgres." ++ ProjectRef p ++ ":" ++ DBPassword p
    ++ "@aws-1-" ++ Region p ++ ".pooler.supabase.com:5432/postgres?sslmode=require"
  else if nonEmpty (ProjectRef p) && nonEmpty (DBPassword p) then
    "postgresql://postgres:" ++ DBPassword p ++ "@db." ++ ProjectRef p
    ++ ".supabase.co:5432/postgres?sslmode=require"
  else EmptyString.

Definition IsReady (p : Project) : bool :=
  String.eqb (Status p) "ACTIVE_HEALTHY".

End Projects.

Module Stored.

Record StoredProject := mkStored {
  ID : string;
  ProjectRef : string;
  ProjectURL : string;
  Region : string;
  AnonKey : string;
  ServiceKey : string;
  DBPassword : string;
  Status : string;
  CreatedAt : Z;
  UpdatedAt : Z
}.

(** [ToStoredProject], [now] being what [time.Now()] returns. *)
Definition ToStoredProject (now : Z) (p : Projects.Project) : StoredProject :=
  mkStored (Projects.ID p) (Projects.ProjectRef p) (Projects.GetProjectURL p)
           (Projects.Region p) (Projects.AnonKey p) (Projects.ServiceKey p)
           (Projects.DBPassword p) (Projects.Status p) (Projects.CreatedAt p) now.

End Stored.

(* ================================================================== *)
(** * Creating and closing a migration runner *)
(* ================================================================== *)

(** What the runner does to the connection pool it opens, in order, and
    the network it talks to as a parameter: whether [sql.Open] fails on a
    connection string, and what the i-th [Ping] on the pool returns. *)
Module Runner.

Local Open Scope string_scope.

Inductive PoolEvent :=
| EvOpen (connStr : string)
| EvLimits (maxLifetimeSeconds maxOpen maxIdle : Z)
| EvPing
| EvSleep (seconds : Z)
| EvClose.

Record Network := mkNetwork {
  openFails : string -> option string;
  pingOutcome : string -> nat -> option string
}.

(** [for i := 0; i < 3; i++] from iteration [i] on, [remaining] iterations
    left: the last ping error and what was done. *)
Fixpoint pingRetry (ping : nat -> option string) (remaining i : nat)
         (pingErr : option string) : option string * list PoolEvent :=
  match remaining with
  | O => (pingErr, [])
  | S r =>
      match ping i with
      | None => (None, [EvPing])                       (* break *)
      | Some e =>
          let (res, evs) := pingRetry ping r (S i) (Some e) in
          (res, EvPing :: EvSleep 2 :: evs)
      end
  end.

(** The runner: its project and the connection string of its pool. *)
Record MigrationRunner := mkRunner {
  project : Projects.Project;
  db : string
}.

Definition NewMigrationRunner (net : Network) (p : Projects.Project)
  : (string + MigrationRunner) * list PoolEvent :=
  let connStr := Projects.GetDatabaseConnectionString p in
  if negb (Projects.nonEmpty connStr)
  then (inl "no database connection string available", [])
  else
    match openFails net connStr with
    | Some e => (inl ("failed to open database connection: " ++ e), [EvOpen connStr])
    | None =>
        let (pingErr, evs) := pingRetry (pingOutcome net connStr) 3 0 None in
        let done := ([EvOpen connStr; EvLimits 180 5 2] ++ evs)%list in
        match pingErr with
        | Some e =>
            (inl ("failed to connect to database after retries: " ++ e),
             (done ++ [EvClose])%list)
        | None => (inr (mkRunner p connStr), done)
        end
    end.

Definition countPings (evs : list PoolEvent) : nat :=
  List.length (filter (fun e => match e with EvPing => true | _ => false end) evs).

Fixpoint sleptSeconds (evs : list PoolEvent) : Z :=
  match evs with
  | [] => 0%Z
  | EvSleep s :: rest => (s + sleptSeconds rest)%Z
  | _ :: rest => sleptSeconds rest
  end.

End Runner.

(* ================================================================== *)
(** * The management API client: keys, polling, passwords *)
(* ================================================================== *)

Module Client.

Local Open Scope string_scope.

Record ProjectAPIKeys := mkKeys {
  AnonKey : string;
  ServiceKey : string
}.

(** The loop of [GetProjectAPIKeys] over the decoded entries, each a
    name and an API key. *)
Fixpoint collectKeys (keys : list (string * string)) (result : ProjectAPIKeys)
  : ProjectAPIKeys :=
  match keys with
  | [] => result
  | (name, apiKey) :: rest =>
      if String.eqb name "anon" then collectKeys rest (mkKeys apiKey (ServiceKey result))
      else if String.eqb name "service_role"
           then collectKeys rest (mkKeys (AnonKey result) apiKey)
           else collectKeys rest result
  end.

Definition decodeKeys (keys : list (string * string)) : ProjectAPIKeys :=
  collectKeys keys (mkKeys EmptyString EmptyString).

(** One call of [GetProject] as [WaitForProject] sees it: the project, or
    nothing when the call failed; the time the call took; and by how much
    the sleep that follows it runs over.  Times are in nanoseconds. *)
Record Poll := mkPoll {
  polled : option Projects.Project;
  took : Z;
  overslept : Z
}.

Inductive WaitResult :=
| Ready (p : Projects.Project)
| CreationFailed (message : string)
| TimedOut (message : string)
| OutOfFuel.

Definition second : Z := 1000000000.

(** The loop of [WaitForProject] from the n-th call on, the clock at
    [now]: the result, the number of calls made and the sleeps asked for.
    [fuel] bounds the iterations of the model. *)
Fixpoint waitLoop (getProject : nat -> Poll) (fuel n : nat)
         (now deadline checkInterval : Z) : WaitResult * nat * list Z :=
  match fuel with
  | O => (OutOfFuel, n, [])
  | S f =>
      if (now <? deadline)%Z then
        let p := getProject n in
        let again (interval : Z) :=
          let '(r, calls, sleeps) :=
            waitLoop getProject f (S n)
                     (now + took p + checkInterval + overslept p)%Z deadline interval in
          (r, calls, checkInterval :: sleeps) in
        match polled p with
        | None => again checkInterval
        | Some proj =>
            if String.eqb (Projects.Status proj) "ACTIVE_HEALTHY"
            then (Ready proj, S n, [])
            else if String.eqb (Projects.Status proj) "INACTIVE"
                    || String.eqb (Projects.Status proj) "UNKNOWN"
            then (CreationFailed ("project creation failed with status: "
                                  ++ Projects.Status proj), S n, [])
            else again (if (checkInterval <? 15 * second)%Z
                        then (checkInterval + 2 * second)%Z else checkInterval)
        end
      else (TimedOut "timeout waiting for project to become ready", n, [])
  end.

(** Iterations that suffice for a timeout: every iteration that loops
    sleeps five seconds at least. *)
Definition fuelFor (timeout : Z) : nat := Z.to_nat (timeout / (5 * second)) + 2.

Definition WaitForProject (getProject : nat -> Poll) (now timeout : Z)
  : WaitResult * nat * list Z :=
  waitLoop getProject (fuelFor timeout) 0 now (now + timeout)%Z (5 * second)%Z.

Definition charset : string :=
  "abcdefghijklmnopqrstuvwxyzABCDEFGHIJKLMNOPQRSTUVWXYZ0123456789".

(** The loop of [randomString] from index [i] on; [nanos i] is the value
    of [time.Now().UnixNano()] at iteration [i].  [None] is the panic of
    an index out of range. *)
Fixpoint randomLoop (nanos : nat -> Z) (remaining i : nat) : option string :=
  match remaining with
  | O => Some EmptyString
  | S r =>
      let idx := Z.rem (nanos i) (Z.of_nat (String.length charset)) in
      if (idx <? 0)%Z then None
      else
        match String.get (Z.to_nat idx) charset with
        | None => None
        | Some ch =>
            match randomLoop nanos r (S i) with
            | Some s => Some (String ch s)
            | None => None
            end
        end
  end.

(** [randomString]; [make] panics on a negative length. *)
Definition randomString (nanos : nat -> Z) (length : Z) : option string :=
  if (length <? 0)%Z then None else randomLoop nanos (Z.to_nat length) 0.

(** The [%d] verb on an [int64]. *)
Definition decimalZ (z : Z) : string :=
  if (z <? 0)%Z then "-" ++ decimal (Z.to_nat (- z)) else decimal (Z.to_nat z).

(** [generateSecurePassword], [unix] being [time.Now().Unix()]. *)
Definition generateSecurePassword (unix : Z) (nanos : nat -> Z) : option string :=
  match randomString nanos 16 with
  | Some s => Some ("Sup4b4se_" ++ decimalZ unix ++ "_" ++ s)
  | None => None
  end.

(** A byte of the alphabet of [randomString]. *)
Definition inCharset (a : ascii) : bool :=
  existsb (Ascii.eqb a) (list_ascii_of_string charset).

(** Letters, digits and the underscore. *)
Definition isWordByte (a : ascii) : bool := isTagRune (N_of_ascii a).

Fixpoint allBytes (p : ascii -> bool) (s : string) : bool :=
  match s with
  | EmptyString => true
  | String a rest => p a && allBytes p rest
  end.

End Client.

(* ================================================================== *)
(** * Configuration and the API key check (package main) *)
(* ================================================================== *)

Module Config.

Local Open Scope string_scope.

(** The environment: the value of a variable, when it is set. *)
Definition Env := string -> option string.

(** [os.Getenv]. *)
Definition Getenv (env : Env) (key : string) : string :=
  match env key with
  | Some v => v
  | None => EmptyString
  end.

Definition getEnv (env : Env) (key defaultValue : string) : string :=
  let value := Getenv env key in
  if negb (Projects.nonEmpty value) then defaultValue else value.

Record Config := mkConfig {
  Port : string;
  DBPath : string;
  SupabaseAccessToken : string;
  SupabaseOrgID : string;
  APIKey : string;
  DefaultRegion : string;
  LogLevel : string
}.

Definition loadConfig (env : Env) : Config :=
  mkConfig (getEnv env "PORT" "8080")
           (getEnv env "DB_PATH" "/tmp/supabase-manager.db")
           (getEnv env "SUPABASE_ACCESS_TOKEN" EmptyString)
           (getEnv env "SUPABASE_ORGANIZATION_ID" EmptyString)
           (getEnv env "API_KEY" "dev-api-key-change-in-production")
           (getEnv env "DEFAULT_REGION" "us-east-1")
           (getEnv env "LOG_LEVEL" "info").

(** [Validate]: [None] is the nil error. *)
Definition Validate (c : Config) : option string :=
  if negb (Projects.nonEmpty (SupabaseAccessToken c))
  then Some "SUPABASE_ACCESS_TOKEN is required"
  else if negb (Projects.nonEmpty (SupabaseOrgID c))
       then Some "SUPABASE_ORGANIZATION_ID is required"
       else None.

(** What the handler of [authMiddleware] does with a request whose
    X-API-Key header is [apiKey] (empty when absent): pass it on, or
    abort it with a status, a code and a message. *)
Inductive AuthDecision :=
| AuthNext
| AuthAbort (status : Z) (code message : string).

Definition authMiddleware (validAPIKey apiKey : string) : AuthDecision :=
  if negb (Projects.nonEmpty apiKey)
  then AuthAbort 401 "UNAUTHORIZED" "API key required"
  else if negb (String.eqb apiKey validAPIKey)
       then AuthAbort 401 "UNAUTHORIZED" "Invalid API key"
       else AuthNext.

End Config.

(* ================================================================== *)
(** * The schema handler (package api) *)
(* ================================================================== *)

(** [ApplySchema] as a function of what its collaborators return: the
    outcome of [ShouldBindJSON] (an error, or the SQL of the request), the
    outcome of [storage.GetProject] (an error, or the stored project), the
    network, and the database each connection string leads to.  It
    gives the response written with [c.JSON], what was done to the pool,
    and the connection after the migration when one was run. *)
Module Handlers.

Local Open Scope string_scope.

Inductive Body :=
| ErrorBody (code message details : string)
| ResultBody (result : MigrationResult).

Record Response := mkResponse {
  status : Z;
  body : Body
}.

(** The project the handler builds from the stored one. *)
Definition runnerProject (sp : Stored.StoredProject) : Projects.Project :=
  Projects.mkProject EmptyString EmptyString EmptyString (Stored.Region sp)
                     EmptyString 0 EmptyString EmptyString
                     (Stored.DBPassword sp) (Stored.ProjectRef sp)
                     EmptyString EmptyString EmptyString.

Section WithServer.
Variable upperTable : rune -> rune.
Variable srv : Server.
Variable elapsed : Z.
Variable target : string -> Conn srv.

Definition ApplySchema (bound : string + Str)
           (stored : string + Stored.StoredProject) (net : Runner.Network)
  : Response * list Runner.PoolEvent * option (Conn srv) :=
  match bound with
  | inl err =>
      (mkResponse 400 (ErrorBody "INVALID_REQUEST" "Invalid request body" err),
       [], None)
  | inr sql =>
      match stored with
      | inl err =>
          (mkResponse 404 (ErrorBody "PROJECT_NOT_FOUND" "Project not found" err),
           [], None)
      | inr storedProject =>
          if negb (String.eqb (Stored.Status storedProject) "ACTIVE_HEALTHY") then
            (mkResponse 400
               (ErrorBody "PROJECT_NOT_READY" "Project is not ready yet"
                          ("Current status: " ++ Stored.Status storedProject)),
             [], None)
          else
            match Runner.NewMigrationRunner net (runnerProject storedProject) with
            | (inl err, evs) =>
                (mkResponse 500
                   (ErrorBody "MIGRATION_FAILED" "Failed to connect to database" err),
                 evs, None)
            | (inr runner, evs) =>
                let '(result, err, c') :=
                  ApplyMigration upperTable elapsed sql (target (Runner.db runner)) in
                (* the deferred runner.Close() *)
                let evs' := (evs ++ [Runner.EvClose])%list in
                match err with
                | Some e =>
                    (mkResponse 500
                       (ErrorBody "MIGRATION_FAILED" "Failed to apply schema" e),
                     evs', Some c')
                | None => (mkResponse 200 (ResultBody result), evs', Some c')
                end
            end
      end
  end.
End WithServer.

Definition countCloses (evs : list Runner.PoolEvent) : nat :=
  List.length (filter (fun e => match e with Runner.EvClose => true | _ => false end)
                      evs).

End Handlers.

(* ================================================================== *)
(** * Facts about the text functions *)
(* ================================================================== *)

Module TextFacts.

Lemma Str_eqb_eq (a b : Str) : Str_eqb a b = true <-> a = b.
Proof.
  unfold Str_eqb. destruct (list_eq_dec N.eq_dec a b); split; congruence.
Qed.

Lemma Str_eqb_neq (a b : Str) : Str_eqb a b = false <-> a <> b.
Proof.
  unfold Str_eqb. destruct (list_eq_dec N.eq_dec a b); split; congruence.
Qed.

Lemma isEmpty_nil (s : Str) : isEmpty s = true <-> s = [].
Proof. destruct s; simpl; split; congruence. Qed.

Lemma isEmpty_false (s : Str) : isEmpty s = false <-> s <> [].
Proof. destruct s; simpl; split; congruence. Qed.

Section DropWhile.
Variable p : rune -> bool.

Lemma dropWhile_all (s : Str) : forallb p s = true -> dropWhile p s = [].
Proof.
  induction s as [|c s IH]; simpl; auto.
  intros H. apply andb_prop in H. destruct H as [Hc Hs].
  rewrite Hc. auto.
Qed.

Lemma dropWhile_head (s : Str) :
  match dropWhile p s with
  | [] => True
  | c :: _ => p c = false
  end.
Proof.
  induction s as [|c s IH]; simpl; auto.
  destruct (p c) eqn:E; auto.
Qed.

Lemma dropWhile_idem (s : Str) : dropWhile p (dropWhile p s) = dropWhile p s.
Proof.
  generalize (dropWhile_head s).
  destruct (dropWhile p s) as [|c t]; simpl; auto.
  intros ->. reflexivity.
Qed.

Lemma dropWhile_snoc (s : Str) (a : rune) :
  p a = false -> dropWhile p (s ++ [a]) = dropWhile p s ++ [a].
Proof.
  intros Ha. induction s as [|c s IH]; simpl.
  - rewrite Ha. reflexivity.
  - destruct (p c); auto.
Qed.

Lemma dropWhileEnd_cons (a : rune) (s : Str) :
  p a = false -> dropWhileEnd p (a :: s) = a :: dropWhileEnd p s.
Proof.
  intros Ha. unfold dropWhileEnd. simpl.
  rewrite dropWhile_snoc by assumption.
  rewrite rev_app_distr. reflexivity.
Qed.

Lemma dropWhileEnd_idem (s : Str) :
  dropWhileEnd p (dropWhileEnd p s) = dropWhileEnd p s.
Proof.
  unfold dropWhileEnd. rewrite rev_involutive, dropWhile_idem. reflexivity.
Qed.

(** Trimming both ends leaves nothing to trim at the front. *)
Lemma dropWhile_trimmed (s : Str) :
  dropWhile p (dropWhileEnd p (dropWhile p s)) = dropWhileEnd p (dropWhile p s).
Proof.
  generalize (dropWhile_head s).
  destruct (dropWhile p s) as [|c t]; auto.
  intros Hc. rewrite dropWhileEnd_cons by assumption. simpl.
  rewrite Hc. reflexivity.
Qed.
End DropWhile.

Lemma TrimSpace_idem (s : Str) : TrimSpace (TrimSpace s) = TrimSpace s.
Proof.
  unfold TrimSpace. rewrite dropWhile_trimmed. apply dropWhileEnd_idem.
Qed.

Lemma TrimSpace_all_space (s : Str) :
  forallb IsSpace s = true -> TrimSpace s = [].
Proof.
  intros H. unfold TrimSpace. rewrite dropWhile_all; auto.
Qed.

End TextFacts.

Import TextFacts.

(* ================================================================== *)
(** * Facts about the splitter *)
(* ================================================================== *)

Module SplitterFacts.

Local Open Scope N_scope.

(** At a semicolon none of the three mode blocks fires. *)
Lemma step_semi (st : Scanner) (rest : Str) :
  step st r_semi rest = if normal st then (flush st, false) else (write st r_semi, false).
Proof.
  unfold step, dollarBlock, commentBlock, normal. cbn.
  destruct st as [ss b s c d t]; cbn.
  destruct s, c, d; reflexivity.
Qed.

Lemma dollarBlock_statements st char rest :
  statements (dollarBlock st char rest) = statements st
  /\ buf (dollarBlock st char rest) = buf st.
Proof.
  unfold dollarBlock.
  destruct ((char =? r_dollar) && negb (inString st) && negb (inComment st)); auto.
  destruct (matchTag rest); auto.
  destruct (negb (inDollarQuote st)); auto.
  destruct (Str_eqb _ _); auto.
Qed.

Lemma commentBlock_statements st char rest :
  statements (commentBlock st char rest) = statements st
  /\ buf (commentBlock st char rest) = buf st.
Proof.
  unfold commentBlock.
  destruct (negb (inString st) && negb (inDollarQuote st)); auto.
  destruct (inComment st).
  - destruct (char =? r_newline); auto.
  - destruct ((char =? r_dash) && nextIs rest r_dash); auto.
Qed.

(** Only the semicolon branch touches the statements. *)
Lemma step_statements st char rest :
  char <> r_semi -> statements (fst (step st char rest)) = statements st.
Proof.
  intros Hc. unfold step.
  set (st2 := commentBlock (dollarBlock st char rest) char rest).
  assert (H2 : statements st2 = statements st).
  { unfold st2. rewrite (proj1 (commentBlock_statements _ _ _)).
    apply dollarBlock_statements. }
  apply N.eqb_neq in Hc. rewrite Hc. cbn [andb].
  destruct (negb (inComment st2) && negb (inDollarQuote st2) && (char =? r_quote)).
  - cbn [andb]. destruct (inString st2); cbn [andb negb].
    + destruct rest as [|c2 rest2]; cbn.
      * exact H2.
      * destruct (c2 =? r_quote); cbn; exact H2.
    + cbn. exact H2.
  - cbn. exact H2.
Qed.

(** The iteration that consumes two runes has a second rune to consume. *)
Lemma step_skip st char rest st' :
  step st char rest = (st', true) -> exists c2 rest2, rest = c2 :: rest2.
Proof.
  unfold step. intros H.
  destruct rest as [|c2 rest2]; [|eauto].
  exfalso. cbn in H. rewrite !andb_false_r in H.
  destruct (_ && _ && _ && _) in H; discriminate.
Qed.

(** A property every iteration keeps holds after the loop. *)
Lemma scan_preserves (P : Scanner -> Prop) :
  (forall st char rest, P st -> P (fst (step st char rest))) ->
  forall rs st, P st -> P (scan st rs).
Proof.
  intros Hstep rs.
  induction rs as [rs IH] using (well_founded_induction
    (Wf_nat.well_founded_ltof _ (@List.length rune))).
  intros st Hst. destruct rs as [|char rest]; simpl; auto.
  specialize (Hstep st char rest Hst).
  destruct (step st char rest) as [st' [|]]; simpl in Hstep.
  - destruct rest as [|c2 rest2]; auto.
    apply IH; auto. unfold Wf_nat.ltof. simpl. lia.
  - apply IH; auto. unfold Wf_nat.ltof. simpl. lia.
Qed.

(** The loop ends in a configuration of the run, at the end of input. *)
Lemma Reach_scan sql :
  forall rs st, Reach sql st rs -> Reach sql (scan st rs) [].
Proof.
  intros rs.
  induction rs as [rs IH] using (well_founded_induction
    (Wf_nat.well_founded_ltof _ (@List.length rune))).
  intros st Hst. destruct rs as [|char rest]; simpl; auto.
  destruct (step st char rest) as [st' [|]] eqn:E.
  - destruct (step_skip _ _ _ E) as (c2 & rest2 & ->).
    apply IH; [unfold Wf_nat.ltof; simpl; lia|].
    eapply reach_skip; eauto.
  - apply IH; [unfold Wf_nat.ltof; simpl; lia|].
    eapply reach_next; eauto.
Qed.

(** A property every iteration keeps holds all along the run. *)
Lemma Reach_preserves (P : Scanner -> Prop) sql :
  P initial ->
  (forall st char rest, P st -> P (fst (step st char rest))) ->
  forall st rs, Reach sql st rs -> P st.
Proof.
  intros Hinit Hstep st rs H.
  induction H as [|st char rest st' _ IH E|st char c2 rest st' _ IH E]; auto.
  - specialize (Hstep st char rest IH). rewrite E in Hstep. exact Hstep.
  - specialize (Hstep st char (c2 :: rest) IH). rewrite E in Hstep. exact Hstep.
Qed.

(** Case analysis on an innermost test of the goal. *)
Ltac plain_scrutinee x :=
  lazymatch x with
  | context [if _ then _ else _] => fail
  | context [match _ with Some _ => _ | None => _ end] => fail
  | context [match _ with [] => _ | _ :: _ => _ end] => fail
  | _ => idtac
  end.

Ltac break_if :=
  match goal with
  | |- context [if ?b then _ else _] => plain_scrutinee b; destruct b eqn:?
  | |- context [match ?x with Some _ => _ | None => _ end] =>
      plain_scrutinee x; destruct x eqn:?
  | |- context [match ?x with [] => _ | _ :: _ => _ end] =>
      plain_scrutinee x; destruct x eqn:?
  end.

(** The three flags exclude each other all along a run. *)
Lemma step_exclusive st char rest :
  exclusive st = true -> exclusive (fst (step st char rest)) = true.
Proof.
  destruct st as [ss b s c d t].
  destruct s, c, d; cbn; try discriminate; intros _;
    unfold step, dollarBlock, commentBlock; cbn;
    repeat (break_if; rewrite ?andb_false_r, ?andb_true_r in *; cbn in *;
            try discriminate; try reflexivity).
Qed.

Lemma Reach_exclusive sql st rs : Reach sql st rs -> exclusive st = true.
Proof.
  apply (Reach_preserves (fun st => exclusive st = true)); auto.
  apply step_exclusive.
Qed.

Lemma exclusive_inString st :
  exclusive st = true -> inString st = true ->
  inComment st = false /\ inDollarQuote st = false.
Proof.
  unfold exclusive. destruct (inString st), (inComment st), (inDollarQuote st);
    auto; discriminate.
Qed.

Lemma exclusive_inDollarQuote st :
  exclusive st = true -> inDollarQuote st = true ->
  inString st = false /\ inComment st = false.
Proof.
  unfold exclusive. destruct (inString st), (inComment st), (inDollarQuote st);
    auto; discriminate.
Qed.

End SplitterFacts.

Import SplitterFacts.

(* ================================================================== *)
(** * Dollar-quote tags *)
(* ================================================================== *)

Module TagFacts.

Local Open Scope N_scope.

Lemma tagRun_spec (rest : Str) :
  let (t, after) := tagRun rest in
  rest = t ++ after /\ forallb isTagRune t = true
  /\ match after with
     | [] => True
     | c :: _ => isTagRune c = false
     end.
Proof.
  induction rest as [|c rest IH]; simpl; auto.
  destruct (isTagRune c) eqn:E.
  - destruct (tagRun rest) as [t after]. destruct IH as (-> & Ht & Ha).
    simpl. rewrite E, Ht. auto.
  - simpl. auto.
Qed.

Lemma tagRun_app (body post : Str) :
  forallb isTagRune body = true ->
  tagRun (body ++ r_dollar :: post) = (body, r_dollar :: post).
Proof.
  induction body as [|c body IH]; simpl; auto.
  intros H. apply andb_prop in H. destruct H as [Hc Hb].
  rewrite Hc, IH by assumption. reflexivity.
Qed.

(** A tag is matched exactly on a run of tag runes closed by a dollar. *)
Lemma matchTag_iff (rest tag : Str) :
  matchTag rest = Some tag <->
  exists body post,
    rest = body ++ r_dollar :: post /\ forallb isTagRune body = true
    /\ tag = r_dollar :: body ++ [r_dollar].
Proof.
  unfold matchTag. split.
  - generalize (tagRun_spec rest). destruct (tagRun rest) as [t after].
    intros (-> & Ht & _). destruct after as [|c after]; [discriminate|].
    destruct (c =? r_dollar) eqn:E; [|discriminate].
    apply N.eqb_eq in E. subst c. intros [= <-]. eauto.
  - intros (body & post & -> & Hb & ->).
    rewrite tagRun_app by assumption. reflexivity.
Qed.

End TagFacts.

Import TagFacts.

(* ================================================================== *)
(** * The splitter and dollar quotes, strings, semicolons *)
(* ================================================================== *)

Local Open Scope N_scope.

(** What the first block of the loop leaves in the two dollar-quote
    variables at a dollar, outside strings and comments. *)
Lemma step_dollar (st : Scanner) (rest : Str) :
  inString st = false -> inComment st = false ->
  step st r_dollar rest = (write (dollarBlock st r_dollar rest) r_dollar, false).
Proof.
  intros Hs Hc. unfold step.
  assert (E1 : inString (dollarBlock st r_dollar rest) = false).
  { unfold dollarBlock. repeat break_if; cbn; assumption. }
  assert (E2 : inComment (dollarBlock st r_dollar rest) = false).
  { unfold dollarBlock. repeat break_if; cbn; assumption. }
  set (st1 := dollarBlock st r_dollar rest) in *.
  assert (E3 : commentBlock st1 r_dollar rest = st1).
  { unfold commentBlock. rewrite E1, E2. cbn. destruct (inDollarQuote st1); reflexivity. }
  rewrite E3. cbn. rewrite !andb_false_r. cbn. reflexivity.
Qed.

(** C1.  A semicolon met while a dollar quote is open is copied to the
    buffer and no statement is emitted, in every run on every script.  At a
    dollar met outside strings and comments the splitter looks for a tag,
    a dollar, a run of letters, digits and underscores and a closing
    dollar: without an open dollar quote a matched tag opens one and is
    remembered; with one open, a matched tag closes it when it equals the
    remembered tag and changes nothing otherwise; without a match nothing
    changes.  The plpgsql function script is emitted as one statement, and
    blocks with different tags, one inside the other or one after the
    other, keep their semicolons. *)
Theorem C1_dollar_quoted_semicolons :
  (forall sql st rest,
      Reach sql st (r_semi :: rest) -> inDollarQuote st = true ->
      step st r_semi rest = (write st r_semi, false)
      /\ Reach sql (write st r_semi) rest
      /\ statements (write st r_semi) = statements st
      /\ inDollarQuote (write st r_semi) = true)
  /\ (forall rest tag,
         matchTag rest = Some tag <->
         exists body post,
           rest = body ++ r_dollar :: post /\ forallb isTagRune body = true
           /\ tag = r_dollar :: body ++ [r_dollar])
  /\ (forall st rest tag,
         inString st = false -> inComment st = false ->
         matchTag rest = Some tag ->
         (inDollarQuote st = false ->
          step st r_dollar rest = (write (setDollar st true tag) r_dollar, false))
         /\ (inDollarQuote st = true -> tag = dollarQuoteTag st ->
             step st r_dollar rest = (write (setDollar st false []) r_dollar, false))
         /\ (inDollarQuote st = true -> tag <> dollarQuoteTag st ->
             step st r_dollar rest = (write st r_dollar, false)))
  /\ (forall st rest,
         inString st = false -> inComment st = false ->
         matchTag rest = None ->
         step st r_dollar rest = (write st r_dollar, false))
  /\ splitSQLStatements
       (runes "CREATE FUNCTION f() RETURNS void AS $$ BEGIN RAISE NOTICE 'x;y'; END; $$ LANGUAGE plpgsql;")
     = [runes "CREATE FUNCTION f() RETURNS void AS $$ BEGIN RAISE NOTICE 'x;y'; END; $$ LANGUAGE plpgsql"]
  /\ splitSQLStatements
       (runes "SELECT $o$ a; $i$ b; $i$ c; $o$; SELECT $$d;$$ || $t$e;$t$;")
     = [runes "SELECT $o$ a; $i$ b; $i$ c; $o$"; runes "SELECT $$d;$$ || $t$e;$t$"].
Proof.
  split; [|split; [|split; [|split; [|split]]]].
  - intros sql st rest HR Hd.
    assert (E : step st r_semi rest = (write st r_semi, false)).
    { rewrite step_semi. unfold normal. rewrite Hd, !andb_false_r. reflexivity. }
    repeat split; auto. eapply reach_next; eauto.
  - exact matchTag_iff.
  - intros st rest tag Hs Hc Hm.
    rewrite (step_dollar _ _ Hs Hc). unfold dollarBlock.
    rewrite Hs, Hc, Hm. cbn. repeat split.
    + intros ->. reflexivity.
    + intros -> ->. cbn.
      rewrite (proj2 (Str_eqb_eq _ _) eq_refl). reflexivity.
    + intros -> Hne. cbn.
      rewrite (proj2 (Str_eqb_neq _ _) Hne). reflexivity.
  - intros st rest Hs Hc Hm.
    rewrite (step_dollar _ _ Hs Hc). unfold dollarBlock.
    rewrite Hs, Hc, Hm. reflexivity.
  - vm_compute. reflexivity.
  - vm_compute. reflexivity.
Qed.

Lemma C1_dollar_quoted_semicolons_witness :
  let sql := [r_dollar; r_dollar; r_semi; r_dollar; r_dollar] in
  let st := mkScanner [] [r_dollar; r_dollar] false false true [r_dollar; r_dollar] in
  Reach sql st [r_semi; r_dollar; r_dollar]
  /\ inDollarQuote st = true
  /\ step st r_semi [r_dollar; r_dollar] = (write st r_semi, false).
Proof.
  cbv zeta.
  assert (HR : Reach [r_dollar; r_dollar; r_semi; r_dollar; r_dollar]
                     (mkScanner [] [r_dollar; r_dollar] false false true
                                [r_dollar; r_dollar])
                     [r_semi; r_dollar; r_dollar]).
  { eapply reach_next; [eapply reach_next; [apply reach_start|]|]; reflexivity. }
  split; [exact HR|split; [reflexivity|]].
  exact (proj1 (proj1 C1_dollar_quoted_semicolons _ _ _ HR eq_refl)).
Defined.

(** Inside a string the first two blocks of the loop do nothing. *)
Lemma blocks_inString (st : Scanner) (char : rune) (rest : Str) :
  inString st = true ->
  commentBlock (dollarBlock st char rest) char rest = st.
Proof.
  intros Hs. unfold dollarBlock. rewrite Hs, andb_false_r. cbn.
  unfold commentBlock. rewrite Hs. reflexivity.
Qed.

(** Outside strings, comments and dollar quotes a quote passes them. *)
Lemma blocks_normal_quote (st : Scanner) (rest : Str) :
  normal st = true ->
  commentBlock (dollarBlock st r_quote rest) r_quote rest = st.
Proof.
  unfold normal. intros H.
  apply andb_prop in H. destruct H as [H Hd].
  apply andb_prop in H. destruct H as [Hs Hc].
  apply negb_true_iff in Hs, Hc, Hd.
  unfold dollarBlock, commentBlock. cbn. rewrite Hs, Hc, Hd. reflexivity.
Qed.

(** C2.  A semicolon met inside a single-quoted string is copied to the
    buffer and no statement is emitted, in every run on every script.  A
    quote met outside strings, comments and dollar quotes opens a string;
    inside a string a quote that is not followed by a quote closes it, and
    a quote followed by a quote leaves the string open, copies both runes
    and resumes after the second.  The INSERT with a semicolon and an
    escaped quote in its literal is emitted as one statement. *)
Theorem C2_string_literal_semicolons :
  (forall sql st rest,
      Reach sql st (r_semi :: rest) -> inString st = true ->
      step st r_semi rest = (write st r_semi, false)
      /\ Reach sql (write st r_semi) rest
      /\ statements (write st r_semi) = statements st
      /\ inString (write st r_semi) = true)
  /\ (forall sql st rest,
         Reach sql st (r_quote :: rest) -> normal st = true ->
         step st r_quote rest = (write (setString st true) r_quote, false))
  /\ (forall sql st rest,
         Reach sql st (r_quote :: rest) -> inString st = true ->
         nextIs rest r_quote = false ->
         step st r_quote rest = (write (setString st false) r_quote, false))
  /\ (forall sql st rest,
         Reach sql st (r_quote :: r_quote :: rest) -> inString st = true ->
         step st r_quote (r_quote :: rest) = (write (write st r_quote) r_quote, true)
         /\ Reach sql (write (write st r_quote) r_quote) rest
         /\ statements (write (write st r_quote) r_quote) = statements st
         /\ buf (write (write st r_quote) r_quote) = buf st ++ [r_quote; r_quote]
         /\ inString (write (write st r_quote) r_quote) = true)
  /\ splitSQLStatements (runes "INSERT INTO t VALUES ('a;b''c')")
     = [runes "INSERT INTO t VALUES ('a;b''c')"].
Proof.
  split; [|split; [|split; [|split]]].
  - intros sql st rest HR Hs.
    assert (E : step st r_semi rest = (write st r_semi, false)).
    { rewrite step_semi. unfold normal. rewrite Hs. reflexivity. }
    repeat split; auto. eapply reach_next; eauto.
  - intros sql st rest _ Hn. unfold step.
    rewrite blocks_normal_quote by assumption.
    unfold normal in Hn.
    apply andb_prop in Hn. destruct Hn as [Hn Hd].
    apply andb_prop in Hn. destruct Hn as [Hs Hc].
    apply negb_true_iff in Hs. rewrite Hc, Hd, Hs. reflexivity.
  - intros sql st rest HR Hs Hnext.
    destruct (exclusive_inString _ (Reach_exclusive HR) Hs) as [Hc Hd].
    unfold step. rewrite blocks_inString by assumption.
    rewrite Hc, Hd, Hs, Hnext. reflexivity.
  - intros sql st rest HR Hs.
    destruct (exclusive_inString _ (Reach_exclusive HR) Hs) as [Hc Hd].
    assert (E : step st r_quote (r_quote :: rest)
                = (write (write st r_quote) r_quote, true)).
    { unfold step. rewrite blocks_inString by assumption.
      rewrite Hc, Hd, Hs. reflexivity. }
    split; [exact E|]. split; [eapply reach_skip; eauto|].
    cbn. rewrite <- app_assoc. auto.
  - vm_compute. reflexivity.
Qed.

Lemma C2_string_literal_semicolons_witness :
  let sql := [r_quote; r_semi; r_quote] in
  let st := mkScanner [] [r_quote] true false false [] in
  Reach sql st [r_semi; r_quote]
  /\ inString st = true
  /\ step st r_semi [r_quote] = (write st r_semi, false).
Proof.
  cbv zeta.
  assert (HR : Reach [r_quote; r_semi; r_quote]
                     (mkScanner [] [r_quote] true false false [])
                     [r_semi; r_quote]).
  { eapply reach_next; [apply reach_start|]; reflexivity. }
  split; [exact HR|split; [reflexivity|]].
  exact (proj1 (proj1 C2_string_literal_semicolons _ _ _ HR eq_refl)).
Defined.

Lemma emit_trimmed (stmts : list Str) (b : Str) :
  Forall trimmed stmts -> Forall trimmed (emit stmts b).
Proof.
  intros H. unfold emit. destruct (isEmpty (TrimSpace b)) eqn:E; auto.
  apply Forall_app. split; auto. constructor; auto.
  split; [now apply isEmpty_false|apply TrimSpace_idem].
Qed.

Lemma step_trimmed st char rest :
  Forall trimmed (statements st) ->
  Forall trimmed (statements (fst (step st char rest))).
Proof.
  intros H. destruct (N.eq_dec char r_semi) as [->|Hne].
  - rewrite step_semi. destruct (normal st); cbn; auto.
    now apply emit_trimmed.
  - rewrite step_statements by assumption. exact H.
Qed.

Lemma split_trimmed (sql : Str) : Forall trimmed (splitSQLStatements sql).
Proof.
  unfold splitSQLStatements, finish.
  assert (H : Forall trimmed (statements (scan initial sql))).
  { apply (scan_preserves (fun st => Forall trimmed (statements st))).
    - intros. now apply step_trimmed.
    - constructor. }
  destruct (isEmpty _); auto. now apply emit_trimmed.
Qed.

(** Outside every mode, a rune that starts nothing is copied. *)
Lemma step_plain (st : Scanner) (char : rune) (rest : Str) :
  normal st = true ->
  char <> r_dollar -> char <> r_dash -> char <> r_quote -> char <> r_semi ->
  step st char rest = (write st char, false).
Proof.
  unfold normal. intros H H1 H2 H3 H4.
  apply andb_prop in H. destruct H as [H Hd].
  apply andb_prop in H. destruct H as [Hs Hc].
  apply negb_true_iff in Hs, Hc, Hd.
  apply N.eqb_neq in H1, H2, H3, H4.
  unfold step, dollarBlock, commentBlock.
  rewrite H1. cbn. rewrite Hs, Hd, Hc. cbn. rewrite H2. cbn.
  rewrite Hc, Hd, Hs, H3, H4. cbn. reflexivity.
Qed.

Lemma space_plain (c : rune) :
  IsSpace c = true ->
  c <> r_dollar /\ c <> r_dash /\ c <> r_quote /\ c <> r_semi.
Proof.
  intros H. repeat split; intros ->; discriminate H.
Qed.

(** On white space and semicolons the loop stays outside every mode, emits
    nothing and holds white space only. *)
Lemma scan_blank (rs : Str) :
  forall st,
    forallb (fun c => IsSpace c || (c =? r_semi)) rs = true ->
    normal st = true -> statements st = [] -> forallb IsSpace (buf st) = true ->
    let fin := scan st rs in
    statements fin = [] /\ forallb IsSpace (buf fin) = true.
Proof.
  induction rs as [|c rs IH]; intros st Hrs Hn Hst Hb; cbn; auto.
  cbn in Hrs. apply andb_prop in Hrs. destruct Hrs as [Hc Hrs].
  apply orb_prop in Hc. destruct Hc as [Hc|Hc].
  - destruct (space_plain _ Hc) as (H1 & H2 & H3 & H4).
    rewrite step_plain by assumption.
    apply IH; auto. cbn. rewrite forallb_app, Hb. cbn. now rewrite Hc.
  - apply N.eqb_eq in Hc. subst c. rewrite step_semi, Hn.
    apply IH; auto. cbn. unfold emit.
    rewrite (TrimSpace_all_space _ Hb), Hst. reflexivity.
Qed.

(** C3, as the code has it.  A statement is emitted only at a semicolon
    met outside strings, comments and dollar quotes: what is emitted there
    is the trimmed buffer, when it is not empty, and the buffer restarts
    empty, so the semicolon is not kept; every other iteration leaves the
    statements as they were.  At the end of input the trimmed buffer, when
    not empty, is the last statement.  Every statement of the result is
    non-empty and trimmed.  A script of white space and semicolons only, the
    empty script among them, yields no statement. *)
Theorem C3_emission_at_normal_semicolons :
  (forall st rest,
      normal st = true ->
      step st r_semi rest = (flush st, false)
      /\ statements (flush st)
         = (if isEmpty (TrimSpace (buf st)) then statements st
            else statements st ++ [TrimSpace (buf st)])
      /\ buf (flush st) = [])
  /\ (forall st char rest,
         char <> r_semi \/ normal st = false ->
         statements (fst (step st char rest)) = statements st)
  /\ (forall sql,
         let fin := scan initial sql in
         Reach sql fin []
         /\ splitSQLStatements sql
            = (if isEmpty (TrimSpace (buf fin)) then statements fin
               else statements fin ++ [TrimSpace (buf fin)]))
  /\ (forall sql, Forall trimmed (splitSQLStatements sql))
  /\ (forall sql,
         forallb (fun c => IsSpace c || (c =? r_semi)) sql = true ->
         splitSQLStatements sql = []).
Proof.
  split; [|split; [|split; [|split]]].
  - intros st rest Hn. rewrite step_semi, Hn. auto.
  - intros st char rest [Hc|Hn].
    + now apply step_statements.
    + destruct (N.eq_dec char r_semi) as [->|Hne].
      * rewrite step_semi, Hn. reflexivity.
      * now apply step_statements.
  - intros sql fin. split.
    + apply Reach_scan. constructor.
    + unfold splitSQLStatements, finish. fold fin. unfold emit.
      destruct (isEmpty (buf fin)) eqn:E; auto.
      apply isEmpty_nil in E. rewrite E. reflexivity.
  - exact split_trimmed.
  - intros sql H.
    destruct (scan_blank sql initial H eq_refl eq_refl eq_refl) as [Hs Hb].
    unfold splitSQLStatements, finish, emit. rewrite Hs.
    rewrite (TrimSpace_all_space _ Hb). cbn. now destruct (isEmpty _).
Qed.

(** C3 as stated fails on comments: their text stays in the buffer.  The
    script made of one comment, a newline and a semicolon yields the
    comment as a statement; the splitter is in its comment mode on all of
    the comment. *)
Lemma C3_comment_only_counterexample :
  inComment (scan initial (runes "-- note")) = true
  /\ splitSQLStatements (runes "-- note" ++ [r_newline; r_semi]) = [runes "-- note"]
  /\ splitSQLStatements (runes "-- note") = [runes "-- note"].
Proof. repeat split; vm_compute; reflexivity. Qed.

(* ================================================================== *)
(** * Facts about the executor *)
(* ================================================================== *)

Module ExecutorFacts.

Local Open Scope Z_scope.

Section Facts.
Variable upperTable : rune -> rune.
Variable srv : Server.
Variable elapsed : Z.

Local Abbreviation runAll := (runAll upperTable srv).
Local Abbreviation execLoop := (execLoop upperTable (srv := srv)).

(** A trimmed statement is run as it stands. *)
Lemma trimmed_loop (s : Str) :
  trimmed s -> TrimSpace s = s /\ isEmpty (TrimSpace s) = false.
Proof.
  intros [Hne Ht]. split; auto. rewrite Ht. now apply isEmpty_false.
Qed.

(** The loop over statements that all succeed. *)
Lemma execLoop_run (pre : list Str) :
  forall result i more tables total d w log w' tables' total',
    Forall trimmed pre ->
    runAll w pre tables total = Some (w', tables', total') ->
    execLoop result i (pre ++ more) tables total (mkConn srv d (Some w) log)
    = execLoop result (i + List.length pre)%nat more tables' total'
               (mkConn srv d (Some w') (log ++ map CallExec pre)).
Proof.
  induction pre as [|s pre IH]; intros result i more tables total d w log
    w' tables' total' Ht Hrun.
  - cbn in Hrun. injection Hrun as <- <- <-. cbn.
    rewrite Nat.add_0_r, app_nil_r. reflexivity.
  - inversion Ht as [|? ? Hs Hpre]; subst.
    destruct (trimmed_loop Hs) as [E1 E2].
    cbn in Hrun. cbn [app Executor.execLoop]. rewrite E1.
    destruct s as [|c0 s0]; [destruct Hs as [Hs _]; congruence|].
    cbn [isEmpty]. unfold txExec. cbn [tx durable calls].
    destruct (serverExec srv w (c0 :: s0)) as [w1 rows|e]; [|discriminate].
    rewrite (IH _ _ _ _ _ _ _ _ _ _ _ Hpre Hrun). cbn [List.length map].
    rewrite <- app_assoc. cbn [app].
    replace (S i + List.length pre)%nat with (i + S (List.length pre))%nat by lia.
    reflexivity.
Qed.

(** The loop at a statement the server refuses. *)
Lemma execLoop_fail result i s more tables total d w log e :
  trimmed s -> serverExec srv w s = ExecErr e ->
  execLoop result i (s :: more) tables total (mkConn srv d (Some w) log)
  = (Returned (setError result (stmtFailedMessage i e s)) (stmtFailedError i e),
     mkConn srv d (Some w) (log ++ [CallExec s])).
Proof.
  intros Hs He. destruct (trimmed_loop Hs) as [E1 E2].
  cbn [Executor.execLoop]. rewrite E1.
  destruct s as [|c0 s0]; [destruct Hs as [Hs _]; congruence|].
  cbn [isEmpty]. unfold txExec. cbn [tx durable calls]. rewrite He. reflexivity.
Qed.

(** Either every statement runs, or there is a first one that fails. *)
Lemma runAll_cases (stmts : list Str) :
  forall w tables total,
    (exists w' tables' total', runAll w stmts tables total = Some (w', tables', total'))
    \/ (exists pre s post w' tables' total' e,
           stmts = pre ++ s :: post
           /\ runAll w pre tables total = Some (w', tables', total')
           /\ serverExec srv w' s = ExecErr e).
Proof.
  induction stmts as [|s stmts IH]; intros w tables total.
  - left. cbn. eauto.
  - cbn. destruct (serverExec srv w s) as [w1 rows|e] eqn:E.
    + destruct (IH w1 (trackTables upperTable s tables)
                   (trackRows upperTable s rows total))
        as [(w' & t' & n' & H)|(pre & s1 & post & w' & t' & n' & e & -> & H & He)].
      * left. eauto.
      * right. exists (s :: pre), s1, post, w', t', n', e. cbn. rewrite E. auto.
    + right. exists [], s, stmts, w, tables, total, e. cbn. auto.
Qed.

Lemma runAll_app_fail pre s post w tables total w' tables' total' e :
  runAll w pre tables total = Some (w', tables', total') ->
  serverExec srv w' s = ExecErr e ->
  runAll w (pre ++ s :: post) tables total = None.
Proof.
  revert w tables total. induction pre as [|p pre IH]; intros w tables total H He.
  - cbn in H. injection H as <- <- <-. cbn. rewrite He. reflexivity.
  - cbn in *. destruct (serverExec srv w p); [|discriminate]. eauto.
Qed.

Local Abbreviation ApplyMigration := (ApplyMigration upperTable (srv := srv) elapsed).

(** The four ways out of [ApplyMigration] once validation passed. *)
Lemma apply_begin_fails sql (c : Conn srv) e :
  validateSQL upperTable sql = None ->
  beginFails srv (durable c) = Some e ->
  ApplyMigration sql c
  = ((mkResult false [] 0 0 ("failed to begin transaction: " ++ e)
               (Z.of_nat (List.length (splitSQLStatements sql))), Some e),
     mkConn srv (durable c) (tx c) (calls c ++ [CallBegin])).
Proof.
  intros Hv Hb. unfold Executor.ApplyMigration, dbBegin. rewrite Hv, Hb. reflexivity.
Qed.

Lemma apply_statement_fails sql (c : Conn srv) pre s post w tables total e :
  validateSQL upperTable sql = None ->
  beginFails srv (durable c) = None ->
  splitSQLStatements sql = pre ++ s :: post ->
  runAll (durable c) pre [] 0 = Some (w, tables, total) ->
  serverExec srv w s = ExecErr e ->
  ApplyMigration sql c
  = ((mkResult false [] 0 0 (stmtFailedMessage (List.length pre) e s)
               (Z.of_nat (List.length (pre ++ s :: post))),
      Some (stmtFailedError (List.length pre) e)),
     mkConn srv (durable c) None
            (calls c ++ [CallBegin] ++ map CallExec (pre ++ [s]) ++ [CallRollback])).
Proof.
  intros Hv Hb Hsplit Hrun He.
  assert (Ht : Forall trimmed (pre ++ s :: post)).
  { rewrite <- Hsplit. apply split_trimmed. }
  apply Forall_app in Ht. destruct Ht as [Hpre Hs].
  inversion Hs as [|? ? Hs1 _]; subst.
  unfold Executor.ApplyMigration, dbBegin. rewrite Hv, Hb, Hsplit.
  rewrite (@execLoop_run _ _ _ _ _ _ _ _ _ _ _ _ Hpre Hrun).
  rewrite (@execLoop_fail _ _ _ _ _ _ _ _ _ _ Hs1 He).
  cbn. unfold txRollback. cbn. rewrite map_app. cbn.
  rewrite <- !app_assoc. reflexivity.
Qed.

Lemma apply_commit_fails sql (c : Conn srv) w tables total e :
  validateSQL upperTable sql = None ->
  beginFails srv (durable c) = None ->
  runAll (durable c) (splitSQLStatements sql) [] 0 = Some (w, tables, total) ->
  commitFails srv w = Some e ->
  ApplyMigration sql c
  = ((mkResult false [] 0 0 ("failed to commit transaction: " ++ e)
               (Z.of_nat (List.length (splitSQLStatements sql))), Some e),
     mkConn srv (durable c) None
            (calls c ++ [CallBegin] ++ map CallExec (splitSQLStatements sql)
                   ++ [CallCommit; CallRollback])).
Proof.
  intros Hv Hb Hrun Hc.
  unfold Executor.ApplyMigration, dbBegin. rewrite Hv, Hb.
  rewrite <- (app_nil_r (splitSQLStatements sql)) at 2.
  rewrite (@execLoop_run _ _ _ _ _ _ _ _ _ _ _ _ (split_trimmed sql) Hrun).
  cbn. unfold txCommit. cbn. rewrite Hc. cbn. unfold txRollback. cbn.
  rewrite <- !app_assoc. reflexivity.
Qed.

Lemma apply_succeeds sql (c : Conn srv) w tables total :
  validateSQL upperTable sql = None ->
  beginFails srv (durable c) = None ->
  runAll (durable c) (splitSQLStatements sql) [] 0 = Some (w, tables, total) ->
  commitFails srv w = None ->
  ApplyMigration sql c
  = ((mkResult true tables total elapsed EmptyString
               (Z.of_nat (List.length (splitSQLStatements sql))), None),
     mkConn srv w None
            (calls c ++ [CallBegin] ++ map CallExec (splitSQLStatements sql)
                   ++ [CallCommit])).
Proof.
  intros Hv Hb Hrun Hc.
  unfold Executor.ApplyMigration, dbBegin. rewrite Hv, Hb.
  rewrite <- (app_nil_r (splitSQLStatements sql)) at 2.
  rewrite (@execLoop_run _ _ _ _ _ _ _ _ _ _ _ _ (split_trimmed sql) Hrun).
  cbn. unfold txCommit. cbn. rewrite Hc. cbn.
  rewrite <- !app_assoc. reflexivity.
Qed.

Lemma apply_invalid sql (c : Conn srv) msg :
  validateSQL upperTable sql = Some msg ->
  ApplyMigration sql c
  = ((mkResult false [] 0 0 ("SQL validation failed: " ++ msg) 0, Some msg), c).
Proof.
  intros Hv. unfold Executor.ApplyMigration. rewrite Hv. reflexivity.
Qed.
End Facts.

End ExecutorFacts.

Import ExecutorFacts.

(* ================================================================== *)
(** * The outcomes of [ApplyMigration] *)
(* ================================================================== *)

Lemma substring_length_le (s : string) (n : nat) :
  (String.length (substring 0 n s) <= n)%nat.
Proof.
  revert s. induction n as [|n IH]; intros [|a s]; cbn; try lia.
  specialize (IH s). lia.
Qed.

Lemma substring_prefix (s : string) (n : nat) :
  prefix (substring 0 n s) s = true.
Proof.
  revert s. induction n as [|n IH]; intros [|a s]; cbn; auto.
  destruct (ascii_dec a a); [apply IH|congruence].
Qed.

(** The excerpt is a prefix of the statement, of at most 100 bytes. *)
Lemma excerpt_bound (stmt : Str) :
  (String.length (excerpt stmt) <= 100)%nat
  /\ prefix (excerpt stmt) (GoString stmt) = true.
Proof.
  unfold excerpt. split.
  - etransitivity; [apply substring_length_le|apply Nat.le_min_r].
  - apply substring_prefix.
Qed.

Section Outcomes.
Variable upperTable : rune -> rune.
Variable srv : Server.
Variable elapsed : Z.

Local Abbreviation run := (runAll upperTable srv).
Local Abbreviation apply := (ApplyMigration upperTable (srv := srv) elapsed).

(** Every call of [ApplyMigration] leaves in one of five ways. *)
Lemma apply_outcomes (sql : Str) (c : Conn srv) :
  let stmts := splitSQLStatements sql in
  let n := Z.of_nat (List.length stmts) in
  (exists msg,
      validateSQL upperTable sql = Some msg
      /\ apply sql c
         = ((mkResult false [] 0 0 ("SQL validation failed: " ++ msg) 0, Some msg), c))
  \/ (exists e,
         validateSQL upperTable sql = None
         /\ beginFails srv (durable c) = Some e
         /\ apply sql c
            = ((mkResult false [] 0 0 ("failed to begin transaction: " ++ e) n, Some e),
               mkConn srv (durable c) (tx c) (calls c ++ [CallBegin])))
  \/ (exists pre s post w tables total e,
         validateSQL upperTable sql = None
         /\ beginFails srv (durable c) = None
         /\ stmts = pre ++ s :: post
         /\ run (durable c) pre [] 0%Z = Some (w, tables, total)
         /\ serverExec srv w s = ExecErr e
         /\ apply sql c
            = ((mkResult false [] 0 0 (stmtFailedMessage (List.length pre) e s) n,
                Some (stmtFailedError (List.length pre) e)),
               mkConn srv (durable c) None
                      (calls c ++ [CallBegin] ++ map CallExec (pre ++ [s])
                             ++ [CallRollback])))
  \/ (exists w tables total e,
         validateSQL upperTable sql = None
         /\ beginFails srv (durable c) = None
         /\ run (durable c) stmts [] 0%Z = Some (w, tables, total)
         /\ commitFails srv w = Some e
         /\ apply sql c
            = ((mkResult false [] 0 0 ("failed to commit transaction: " ++ e) n, Some e),
               mkConn srv (durable c) None
                      (calls c ++ [CallBegin] ++ map CallExec stmts
                             ++ [CallCommit; CallRollback])))
  \/ (exists w tables total,
         validateSQL upperTable sql = None
         /\ beginFails srv (durable c) = None
         /\ run (durable c) stmts [] 0%Z = Some (w, tables, total)
         /\ commitFails srv w = None
         /\ apply sql c
            = ((mkResult true tables total elapsed EmptyString n, None),
               mkConn srv w None
                      (calls c ++ [CallBegin] ++ map CallExec stmts ++ [CallCommit]))).
Proof.
  intros stmts n.
  destruct (validateSQL upperTable sql) as [msg|] eqn:Hv.
  { left. exists msg. split; auto. now apply apply_invalid. }
  right. destruct (beginFails srv (durable c)) as [e|] eqn:Hb.
  { left. exists e. repeat split; auto. now apply apply_begin_fails. }
  right.
  destruct (runAll_cases upperTable srv stmts (durable c) [] 0%Z)
    as [(w & tables & total & Hrun)
       |(pre & s & post & w & tables & total & e & Hsplit & Hrun & He)].
  - right. destruct (commitFails srv w) as [e|] eqn:Hc.
    + left. exists w, tables, total, e. repeat split; auto.
      eapply apply_commit_fails; eauto.
    + right. exists w, tables, total. repeat split; auto.
      eapply apply_succeeds; eauto.
  - left. exists pre, s, post, w, tables, total, e. repeat split; auto.
    unfold n. fold stmts. rewrite Hsplit.
    eapply apply_statement_fails; eauto.
Qed.

End Outcomes.

(** C4.  [ApplyMigration] is all or nothing.  The result says success
    exactly when validation passed, the transaction began, every statement
    of the script ran and the commit succeeded; then the committed contents
    are those after the last statement and no rollback was issued.  When a
    statement fails, or the commit fails, the last call on the connection
    is the rollback, no transaction stays open, the success flag is false
    and the committed contents are those before the call.  Whenever the
    flag is false the committed contents are unchanged and an error is
    returned. *)
Theorem C4_all_or_nothing :
  forall upperTable (srv : Server) elapsed sql (c : Conn srv) res err c',
    ApplyMigration upperTable elapsed sql c = (res, err, c') ->
    let stmts := splitSQLStatements sql in
    (Success res = true <->
       validateSQL upperTable sql = None
       /\ beginFails srv (durable c) = None
       /\ exists w tables total,
            runAll upperTable srv (durable c) stmts [] 0%Z = Some (w, tables, total)
            /\ commitFails srv w = None)
    /\ (Success res = true ->
        exists w tables total,
          runAll upperTable srv (durable c) stmts [] 0%Z = Some (w, tables, total)
          /\ durable c' = w /\ tx c' = None /\ err = None
          /\ calls c' = calls c ++ [CallBegin] ++ map CallExec stmts ++ [CallCommit])
    /\ (Success res = false -> durable c' = durable c /\ err <> None)
    /\ (forall pre s post w tables total e,
           validateSQL upperTable sql = None ->
           beginFails srv (durable c) = None ->
           stmts = pre ++ s :: post ->
           runAll upperTable srv (durable c) pre [] 0%Z = Some (w, tables, total) ->
           serverExec srv w s = ExecErr e ->
           Success res = false /\ durable c' = durable c /\ tx c' = None
           /\ calls c' = calls c ++ [CallBegin] ++ map CallExec (pre ++ [s])
                               ++ [CallRollback])
    /\ (forall w tables total e,
           validateSQL upperTable sql = None ->
           beginFails srv (durable c) = None ->
           runAll upperTable srv (durable c) stmts [] 0%Z = Some (w, tables, total) ->
           commitFails srv w = Some e ->
           Success res = false /\ durable c' = durable c /\ tx c' = None
           /\ calls c' = calls c ++ [CallBegin] ++ map CallExec stmts
                               ++ [CallCommit; CallRollback]).
Proof.
  intros upperTable srv elapsed sql c res err c' H stmts.
  split; [|split; [|split; [|split]]].
  - destruct (apply_outcomes upperTable elapsed sql c)
      as [(msg & Hv & E)|[(e & Hv & Hb & E)
         |[(pre & s & post & w & t & n & e & Hv & Hb & Hs & Hrun & He & E)
         |[(w & t & n & e & Hv & Hb & Hrun & Hc & E)
         |(w & t & n & Hv & Hb & Hrun & Hc & E)]]]];
      rewrite E in H; injection H as <- <- <-; cbn [Success]; split;
        try discriminate; try (intros _; reflexivity).
    + intros (Hv' & _). congruence.
    + intros (_ & Hb' & _). congruence.
    + intros (_ & _ & w2 & t2 & n2 & Hrun2 & _).
      fold stmts in Hs. rewrite Hs in Hrun2.
      erewrite runAll_app_fail in Hrun2 by eassumption. discriminate.
    + intros (_ & _ & w2 & t2 & n2 & Hrun2 & Hc2).
      fold stmts in Hrun. rewrite Hrun in Hrun2. injection Hrun2 as <- <- <-.
      congruence.
    + intros _. repeat split; auto. exists w, t, n. auto.
  - destruct (apply_outcomes upperTable elapsed sql c)
      as [(msg & Hv & E)|[(e & Hv & Hb & E)
         |[(pre & s & post & w & t & n & e & Hv & Hb & Hs & Hrun & He & E)
         |[(w & t & n & e & Hv & Hb & Hrun & Hc & E)
         |(w & t & n & Hv & Hb & Hrun & Hc & E)]]]];
      rewrite E in H; injection H as <- <- <-; cbn [Success]; try discriminate.
    intros _. exists w, t, n. cbn. auto.
  - destruct (apply_outcomes upperTable elapsed sql c)
      as [(msg & Hv & E)|[(e & Hv & Hb & E)
         |[(pre & s & post & w & t & n & e & Hv & Hb & Hs & Hrun & He & E)
         |[(w & t & n & e & Hv & Hb & Hrun & Hc & E)
         |(w & t & n & Hv & Hb & Hrun & Hc & E)]]]];
      rewrite E in H; injection H as <- <- <-; cbn [Success durable];
        try discriminate; intros _; split; auto; discriminate.
  - intros pre s post w t n e Hv Hb Hs Hrun He.
    erewrite apply_statement_fails in H by eassumption.
    injection H as <- <- <-. cbn. auto.
  - intros w t n e Hv Hb Hrun Hc.
    erewrite apply_commit_fails in H by eassumption.
    injection H as <- <- <-. cbn. auto.
Qed.

Lemma C4_all_or_nothing_witness :
  let sql := runes "CREATE TABLE a (id int); BOGUS" in
  let c := idle demoServer [] in
  let out := ApplyMigration plainTable 7 sql c in
  ApplyMigration plainTable 7 sql c = (fst (fst out), snd (fst out), snd out)
  /\ Success (fst (fst out)) = false
  /\ durable (snd out) = durable c.
Proof.
  cbv zeta.
  assert (H : ApplyMigration plainTable 7 (runes "CREATE TABLE a (id int); BOGUS")
                             (idle demoServer [])
              = (fst (fst (ApplyMigration plainTable 7
                             (runes "CREATE TABLE a (id int); BOGUS")
                             (idle demoServer []))),
                 snd (fst (ApplyMigration plainTable 7
                             (runes "CREATE TABLE a (id int); BOGUS")
                             (idle demoServer []))),
                 snd (ApplyMigration plainTable 7
                        (runes "CREATE TABLE a (id int); BOGUS")
                        (idle demoServer [])))).
  { vm_compute. reflexivity. }
  split; [exact H|]. split; [vm_compute; reflexivity|].
  exact (proj1 (proj1 (proj2 (proj2 (C4_all_or_nothing _ _ _ _ H))) eq_refl)).
Defined.

(** C5.  When the statements before the k-th all run and the server
    refuses the k-th, the calls made on the connection are the begin, one
    execution for each of the first k statements and the rollback: nothing
    after the k-th is executed.  The error message of the result is built
    from the index k, counted from 1, the server's message and the
    excerpt, which is a prefix of at most 100 bytes of the k-th statement,
    itself trimmed; the returned error carries the index too. *)
Theorem C5_first_failure_stops :
  forall upperTable (srv : Server) elapsed sql (c : Conn srv)
         pre s post w tables total e,
    validateSQL upperTable sql = None ->
    beginFails srv (durable c) = None ->
    splitSQLStatements sql = pre ++ s :: post ->
    runAll upperTable srv (durable c) pre [] 0%Z = Some (w, tables, total) ->
    serverExec srv w s = ExecErr e ->
    let k := (List.length pre + 1)%nat in
    let out := ApplyMigration upperTable elapsed sql c in
    Success (fst (fst out)) = false
    /\ calls (snd out)
       = calls c ++ [CallBegin] ++ map CallExec (pre ++ [s]) ++ [CallRollback]
    /\ Error (fst (fst out))
       = ("statement " ++ decimal k ++ " failed: " ++ e ++ newline
          ++ "Statement: " ++ excerpt s)%string
    /\ snd (fst out)
       = Some ("failed to execute statement " ++ decimal k ++ ": " ++ e)%string
    /\ (String.length (excerpt s) <= 100)%nat
    /\ prefix (excerpt s) (GoString s) = true
    /\ TrimSpace s = s.
Proof.
  intros upperTable srv elapsed sql c pre s post w tables total e
         Hv Hb Hs Hrun He k out.
  unfold out. erewrite apply_statement_fails by eassumption. cbn.
  repeat split; try apply excerpt_bound.
  assert (Ht : Forall trimmed (pre ++ s :: post)).
  { rewrite <- Hs. apply split_trimmed. }
  apply Forall_app in Ht. destruct Ht as [_ Ht].
  inversion Ht as [|? ? [_ H] _]. exact H.
Qed.

Lemma C5_first_failure_stops_witness :
  let sql := runes "CREATE TABLE a (id int); BOGUS; INSERT INTO a VALUES (1)" in
  let out := ApplyMigration plainTable 7 sql (idle demoServer []) in
  Error (fst (fst out))
  = ("statement 2 failed: syntax error" ++ newline ++ "Statement: BOGUS")%string
  /\ calls (snd out)
     = [CallBegin; CallExec (runes "CREATE TABLE a (id int)");
        CallExec (runes "BOGUS"); CallRollback].
Proof.
  cbv zeta.
  pose proof (@C5_first_failure_stops plainTable demoServer 7
                (runes "CREATE TABLE a (id int); BOGUS; INSERT INTO a VALUES (1)")
                (idle demoServer [])
                [runes "CREATE TABLE a (id int)"] (runes "BOGUS")
                [runes "INSERT INTO a VALUES (1)"]
                [runes "CREATE TABLE a (id int)"] [runes "a"] 0%Z "syntax error"
                eq_refl eq_refl eq_refl eq_refl eq_refl) as H.
  cbv zeta in H. destruct H as (_ & Hcalls & Herr & _).
  split; [exact Herr|exact Hcalls].
Defined.

(** C9, as the code has it.  When the statements before the k-th all run
    and the server refuses the k-th, the result carries no created table
    and no inserted row, whatever the first k-1 statements tallied: the
    tallies are local to the loop and reach the result on success only.
    The committed contents are those before the call. *)
Theorem C9_failure_carries_no_tallies :
  forall upperTable (srv : Server) elapsed sql (c : Conn srv)
         pre s post w tables total e,
    validateSQL upperTable sql = None ->
    beginFails srv (durable c) = None ->
    splitSQLStatements sql = pre ++ s :: post ->
    runAll upperTable srv (durable c) pre [] 0%Z = Some (w, tables, total) ->
    serverExec srv w s = ExecErr e ->
    let out := ApplyMigration upperTable elapsed sql c in
    Success (fst (fst out)) = false
    /\ TablesCreated (fst (fst out)) = []
    /\ RowsInserted (fst (fst out)) = 0%Z
    /\ durable (snd out) = durable c.
Proof.
  intros upperTable srv elapsed sql c pre s post w tables total e
         Hv Hb Hs Hrun He out.
  unfold out. erewrite apply_statement_fails by eassumption. cbn. auto.
Qed.

Lemma C9_failure_carries_no_tallies_witness :
  let sql := runes "CREATE TABLE a (id int); INSERT INTO a VALUES (1); BOGUS" in
  let out := ApplyMigration plainTable 7 sql (idle demoServer []) in
  TablesCreated (fst (fst out)) = [] /\ RowsInserted (fst (fst out)) = 0%Z.
Proof.
  cbv zeta.
  pose proof (@C9_failure_carries_no_tallies plainTable demoServer 7
                (runes "CREATE TABLE a (id int); INSERT INTO a VALUES (1); BOGUS")
                (idle demoServer [])
                [runes "CREATE TABLE a (id int)"; runes "INSERT INTO a VALUES (1)"]
                (runes "BOGUS") []
                [runes "CREATE TABLE a (id int)"; runes "INSERT INTO a VALUES (1)"]
                [runes "a"] 1%Z "syntax error"
                eq_refl eq_refl eq_refl eq_refl eq_refl) as H.
  cbv zeta in H. destruct H as (_ & Ht & Hr & _).
  split; [exact Ht|exact Hr].
Defined.

(** C9 as stated fails: the third statement of this script is refused
    after the first two ran and tallied one table and one row, and the
    result carries neither. *)
Lemma C9_tallies_dropped_counterexample :
  let sql := runes "CREATE TABLE a (id int); INSERT INTO a VALUES (1); BOGUS" in
  let c := idle demoServer [] in
  let out := ApplyMigration plainTable 7 sql c in
  splitSQLStatements sql
  = [runes "CREATE TABLE a (id int)"; runes "INSERT INTO a VALUES (1)"; runes "BOGUS"]
  /\ runAll plainTable demoServer (durable c)
            [runes "CREATE TABLE a (id int)"; runes "INSERT INTO a VALUES (1)"] [] 0%Z
     = Some ([runes "CREATE TABLE a (id int)"; runes "INSERT INTO a VALUES (1)"],
             [runes "a"], 1%Z)
  /\ serverExec demoServer
                [runes "CREATE TABLE a (id int)"; runes "INSERT INTO a VALUES (1)"]
                (runes "BOGUS")
     = ExecErr "syntax error"
  /\ Success (fst (fst out)) = false
  /\ TablesCreated (fst (fst out)) = []
  /\ RowsInserted (fst (fst out)) = 0%Z.
Proof. cbv zeta. repeat split; vm_compute; reflexivity. Qed.

(** C10.  Once validation passed, the result's statement count is the
    number of statements the splitter produced, however the call ends; in
    particular when the k-th statement is refused the count is still that
    of all statements, while only the first k were executed. *)
Theorem C10_statements_run_is_split_count :
  forall upperTable (srv : Server) elapsed sql (c : Conn srv),
    let out := ApplyMigration upperTable elapsed sql c in
    (validateSQL upperTable sql = None ->
     StatementsRun (fst (fst out))
     = Z.of_nat (List.length (splitSQLStatements sql)))
    /\ (forall pre s post w tables total e,
           validateSQL upperTable sql = None ->
           beginFails srv (durable c) = None ->
           splitSQLStatements sql = pre ++ s :: post ->
           runAll upperTable srv (durable c) pre [] 0%Z = Some (w, tables, total) ->
           serverExec srv w s = ExecErr e ->
           StatementsRun (fst (fst out))
           = Z.of_nat (List.length pre + 1 + List.length post)
           /\ calls (snd out)
              = calls c ++ [CallBegin] ++ map CallExec (pre ++ [s]) ++ [CallRollback]).
Proof.
  intros upperTable srv elapsed sql c out. split.
  - intros Hv. unfold out.
    destruct (apply_outcomes upperTable elapsed sql c)
      as [(msg & Hv' & E)|[(e & _ & Hb & E)
         |[(pre & s & post & w & t & n & e & _ & Hb & Hs & Hrun & He & E)
         |[(w & t & n & e & _ & Hb & Hrun & Hc & E)
         |(w & t & n & _ & Hb & Hrun & Hc & E)]]]];
      try congruence; rewrite E; reflexivity.
  - intros pre s post w tables total e Hv Hb Hs Hrun He.
    unfold out. erewrite apply_statement_fails by eassumption. cbn.
    split; auto. rewrite length_app. cbn. f_equal. lia.
Qed.

Lemma C10_statements_run_is_split_count_witness :
  let sql := runes "CREATE TABLE a (id int); BOGUS; INSERT INTO a VALUES (1)" in
  let out := ApplyMigration plainTable 7 sql (idle demoServer []) in
  StatementsRun (fst (fst out)) = 3%Z
  /\ calls (snd out)
     = [CallBegin; CallExec (runes "CREATE TABLE a (id int)");
        CallExec (runes "BOGUS"); CallRollback].
Proof.
  cbv zeta.
  pose proof (proj2 (@C10_statements_run_is_split_count plainTable demoServer 7
                (runes "CREATE TABLE a (id int); BOGUS; INSERT INTO a VALUES (1)")
                (idle demoServer []))
                [runes "CREATE TABLE a (id int)"] (runes "BOGUS")
                [runes "INSERT INTO a VALUES (1)"]
                [runes "CREATE TABLE a (id int)"] [runes "a"] 0%Z
                "syntax error"%string
                eq_refl eq_refl eq_refl eq_refl eq_refl) as H.
  destruct H as (Hn & Hcalls).
  split; [exact Hn|exact Hcalls].
Defined.

Lemma runAll_ok upperTable (srv : Server) w s more tables total w' rows :
  serverExec srv w s = ExecOk w' rows ->
  runAll upperTable srv w (s :: more) tables total
  = runAll upperTable srv w' more (trackTables upperTable s tables)
           (trackRows upperTable s rows total).
Proof. intros H. cbn. rewrite H. reflexivity. Qed.

(** C8.  On the users script, when the transaction begins, the three
    statements run, each INSERT reporting one affected row, and the commit
    succeeds, the result is a success with the table users, two inserted
    rows and three statements; what the CREATE TABLE reports as affected
    rows is not counted.  The three statements are executed in order
    between the begin and the commit, and the contents after the last one
    are committed. *)
Theorem C8_users_example :
  forall upperTable (srv : Server) elapsed (c : Conn srv) w1 w2 w3 r0,
    let create := runes "CREATE TABLE IF NOT EXISTS users (id int)" in
    let insert1 := runes "INSERT INTO users VALUES (1)" in
    let insert2 := runes "INSERT INTO users VALUES (2)" in
    beginFails srv (durable c) = None ->
    serverExec srv (durable c) create = ExecOk w1 r0 ->
    serverExec srv w1 insert1 = ExecOk w2 1%Z ->
    serverExec srv w2 insert2 = ExecOk w3 1%Z ->
    commitFails srv w3 = None ->
    let out :=
      ApplyMigration upperTable elapsed
        (runes "CREATE TABLE IF NOT EXISTS users (id int); INSERT INTO users VALUES (1); INSERT INTO users VALUES (2);")
        c in
    fst out = (mkResult true [runes "users"] 2%Z elapsed EmptyString 3%Z, None)
    /\ durable (snd out) = w3
    /\ calls (snd out)
       = calls c ++ [CallBegin; CallExec create; CallExec insert1;
                     CallExec insert2; CallCommit].
Proof.
  intros upperTable srv elapsed c w1 w2 w3 r0 create insert1 insert2
         Hb H1 H2 H3 Hc out.
  assert (Hsplit : splitSQLStatements
            (runes "CREATE TABLE IF NOT EXISTS users (id int); INSERT INTO users VALUES (1); INSERT INTO users VALUES (2);")
          = [create; insert1; insert2]) by (vm_compute; reflexivity).
  assert (Hrun : runAll upperTable srv (durable c) [create; insert1; insert2] [] 0%Z
                 = Some (w3, [runes "users"], 2%Z)).
  { do 3 (erewrite runAll_ok by eassumption).
    cbn [runAll]. apply f_equal.
    apply f_equal2; [apply f_equal|]; vm_compute; reflexivity. }
  rewrite <- Hsplit in Hrun.
  unfold out. erewrite apply_succeeds; [|vm_compute; reflexivity|eassumption..].
  rewrite Hsplit. cbn. auto.
Qed.

Lemma C8_users_example_witness :
  let out :=
    ApplyMigration plainTable 7
      (runes "CREATE TABLE IF NOT EXISTS users (id int); INSERT INTO users VALUES (1); INSERT INTO users VALUES (2);")
      (idle demoServer []) in
  fst out = (mkResult true [runes "users"] 2%Z 7%Z EmptyString 3%Z, None).
Proof.
  cbv zeta.
  exact (proj1 (@C8_users_example plainTable demoServer 7 (idle demoServer [])
                  [runes "CREATE TABLE IF NOT EXISTS users (id int)"]
                  [runes "CREATE TABLE IF NOT EXISTS users (id int)";
                   runes "INSERT INTO users VALUES (1)"]
                  [runes "CREATE TABLE IF NOT EXISTS users (id int)";
                   runes "INSERT INTO users VALUES (1)";
                   runes "INSERT INTO users VALUES (2)"]
                  1%Z eq_refl eq_refl eq_refl eq_refl eq_refl)).
Defined.

(* ================================================================== *)
(** * The validator *)
(* ================================================================== *)

Module ValidatorFacts.

Local Open Scope N_scope.

Lemma HasPrefix_iff (p s : Str) :
  HasPrefix s p = true <-> exists post, s = p ++ post.
Proof.
  revert s. induction p as [|a p IH]; intros s; cbn.
  - split; auto. intros _. exists s. reflexivity.
  - destruct s as [|b s]; cbn.
    + split; [discriminate|]. intros [post H]. discriminate.
    + rewrite andb_true_iff, N.eqb_eq, IH. split.
      * intros [-> [post ->]]. eauto.
      * intros [post [= -> ->]]. eauto.
Qed.

Lemma Contains_iff (d s : Str) :
  Contains s d = true <-> exists pre post, s = pre ++ d ++ post.
Proof.
  induction s as [|c s IH]; cbn; rewrite orb_true_iff.
  - rewrite HasPrefix_iff. split.
    + intros [[post H]|H]; [|discriminate]. exists [], post. exact H.
    + intros (pre & post & H). left.
      destruct pre as [|x pre]; [|discriminate]. eauto.
  - rewrite HasPrefix_iff, IH. split.
    + intros [[post H]|(pre & post & H)].
      * exists [], post. exact H.
      * exists (c :: pre), post. cbn. now rewrite H.
    + intros (pre & post & H). destruct pre as [|x pre].
      * left. eauto.
      * right. injection H as _ H. eauto.
Qed.

Lemma Contains_rev (d s : Str) : Contains (rev s) (rev d) = Contains s d.
Proof.
  apply eq_true_iff_eq. rewrite !Contains_iff. split.
  - intros (pre & post & H). exists (rev post), (rev pre).
    apply (f_equal (@rev rune)) in H. rewrite rev_involutive in H. rewrite H.
    rewrite !rev_app_distr, rev_involutive, app_assoc. reflexivity.
  - intros (pre & post & ->). exists (rev post), (rev pre).
    rewrite !rev_app_distr, app_assoc. reflexivity.
Qed.

(** A rune that is not the first of the needle can be skipped. *)
Lemma Contains_skip (c x : rune) (d s : Str) :
  c <> x -> Contains (c :: s) (x :: d) = Contains s (x :: d).
Proof.
  intros H. cbn. apply N.eqb_neq in H. rewrite N.eqb_sym, H. reflexivity.
Qed.

Section Trim.
Variable upperTable : rune -> rune.
Hypothesis upper_space :
  forall r, IsSpace r = true -> IsSpace (upperTable r) = true.

Lemma toUpperRune_space (r : rune) :
  IsSpace r = true -> IsSpace (toUpperRune upperTable r) = true.
Proof.
  intros H. unfold toUpperRune.
  destruct (r <=? 127) eqn:E; [|now apply upper_space].
  destruct ((97 <=? r) && (r <=? 122)) eqn:E2; auto.
  exfalso. apply andb_prop in E2. destruct E2 as [E2 E3].
  apply N.leb_le in E, E2, E3. unfold IsSpace in H.
  replace (r <=? 255) with true in H by (symmetry; apply N.leb_le; lia).
  repeat (apply orb_prop in H; destruct H as [H|H]);
    apply N.eqb_eq in H; lia.
Qed.

Lemma Contains_dropWhile (x : rune) (d s : Str) :
  IsSpace x = false ->
  Contains (ToUpper upperTable (dropWhile IsSpace s)) (x :: d)
  = Contains (ToUpper upperTable s) (x :: d).
Proof.
  intros Hx. induction s as [|c s IH]; auto.
  cbn [dropWhile]. destruct (IsSpace c) eqn:E; auto.
  rewrite IH. unfold ToUpper. cbn [map]. symmetry. apply Contains_skip.
  intros Heq. apply toUpperRune_space in E. congruence.
Qed.

Lemma Contains_dropWhileEnd (y : rune) (d d' s : Str) :
  rev d = y :: d' -> IsSpace y = false ->
  Contains (ToUpper upperTable (dropWhileEnd IsSpace s)) d
  = Contains (ToUpper upperTable s) d.
Proof.
  intros Hd Hy. unfold dropWhileEnd, ToUpper.
  rewrite <- (Contains_rev d (map _ (rev _))), map_rev, rev_involutive.
  rewrite Hd. fold (ToUpper upperTable (dropWhile IsSpace (rev s))).
  rewrite Contains_dropWhile by assumption.
  unfold ToUpper. rewrite <- Hd, map_rev. apply Contains_rev.
Qed.

(** Trimming the script changes nothing to the needles that start and
    end with a rune that is not white space. *)
Lemma Contains_TrimSpace (x y : rune) (d d' s : Str) :
  rev (x :: d) = y :: d' -> IsSpace x = false -> IsSpace y = false ->
  Contains (ToUpper upperTable (TrimSpace s)) (x :: d)
  = Contains (ToUpper upperTable s) (x :: d).
Proof.
  intros Hd Hx Hy. unfold TrimSpace.
  erewrite Contains_dropWhileEnd by eassumption. now apply Contains_dropWhile.
Qed.

Lemma dangerous_TrimSpace (danger : string) (s : Str) :
  In danger dangerous ->
  Contains (ToUpper upperTable (TrimSpace s)) (runes danger)
  = Contains (ToUpper upperTable s) (runes danger).
Proof.
  intros [<-|[<-|[<-|[]]]];
    eapply Contains_TrimSpace; reflexivity.
Qed.
End Trim.

Lemma firstDanger_some (u : Str) (ds : list string) (danger : string) :
  In danger ds -> Contains u (runes danger) = true ->
  exists d, In d ds /\ Contains u (runes d) = true /\ firstDanger u ds = Some d.
Proof.
  induction ds as [|d0 ds IH]; intros Hin Hc; [destruct Hin|].
  cbn [firstDanger]. destruct (Contains u (runes d0)) eqn:E.
  - exists d0. cbn. auto.
  - destruct Hin as [->|Hin]; [congruence|].
    destruct (IH Hin Hc) as (d & Hd & Hcd & Hf). exists d. cbn. auto.
Qed.

End ValidatorFacts.

Import ValidatorFacts.

(** C7.  [validateSQL] refuses a script that is empty once trimmed, with
    the empty-script message, and a script whose upper-cased trimmed text
    contains an entry of the denylist, with the message of the first entry
    it contains; the two messages differ.  For a case table that maps
    white space to white space, as Unicode's does, the same holds of the
    upper-cased text of the whole script, and so of every script that
    spells an entry somewhere in whatever case.  When validation fails
    [ApplyMigration] returns a failure carrying the validation message,
    zero statements run and the validation error, and the connection is
    untouched: no call is made on it, so no transaction is opened. *)
Theorem C7_validation_blocks :
  forall upperTable (srv : Server) elapsed,
    (forall sql,
        isEmpty (TrimSpace sql) = true ->
        validateSQL upperTable sql = Some emptyMessage)
    /\ (forall sql danger,
           In danger dangerous ->
           Contains (ToUpper upperTable (TrimSpace sql)) (runes danger) = true ->
           exists d,
             In d dangerous
             /\ Contains (ToUpper upperTable (TrimSpace sql)) (runes d) = true
             /\ validateSQL upperTable sql = Some (dangerMessage d))
    /\ ((forall r, IsSpace r = true -> IsSpace (upperTable r) = true) ->
        (forall sql danger,
            In danger dangerous ->
            Contains (ToUpper upperTable sql) (runes danger) = true ->
            exists d,
              In d dangerous
              /\ Contains (ToUpper upperTable sql) (runes d) = true
              /\ validateSQL upperTable sql = Some (dangerMessage d))
        /\ (forall pre variant post danger,
               In danger dangerous ->
               ToUpper upperTable variant = runes danger ->
               exists d,
                 In d dangerous
                 /\ validateSQL upperTable (pre ++ variant ++ post)
                    = Some (dangerMessage d)))
    /\ (forall d, In d dangerous -> dangerMessage d <> emptyMessage)
    /\ (forall sql (c : Conn srv) msg,
           validateSQL upperTable sql = Some msg ->
           ApplyMigration upperTable elapsed sql c
           = ((mkResult false [] 0%Z 0%Z ("SQL validation failed: " ++ msg) 0%Z,
               Some msg), c))
    /\ validateSQL upperTable (runes "DROP DATABASE foo;")
       = Some (dangerMessage "DROP DATABASE")
    /\ validateSQL upperTable (runes "drop database foo;")
       = Some (dangerMessage "DROP DATABASE").
Proof.
  intros upperTable srv elapsed.
  assert (Htrim : forall sql danger,
           In danger dangerous ->
           Contains (ToUpper upperTable (TrimSpace sql)) (runes danger) = true ->
           exists d,
             In d dangerous
             /\ Contains (ToUpper upperTable (TrimSpace sql)) (runes d) = true
             /\ validateSQL upperTable sql = Some (dangerMessage d)).
  { intros sql danger Hin Hc. unfold validateSQL.
    destruct (TrimSpace sql) as [|c0 t] eqn:Et.
    - exfalso. destruct Hin as [<-|[<-|[<-|[]]]]; discriminate Hc.
    - cbn [isEmpty].
      destruct (@firstDanger_some _ _ _ Hin Hc) as (d & Hd & Hcd & Hf).
      exists d. rewrite Hf. auto. }
  assert (Hmain : (forall r, IsSpace r = true -> IsSpace (upperTable r) = true) ->
           forall sql danger,
           In danger dangerous ->
           Contains (ToUpper upperTable sql) (runes danger) = true ->
           exists d,
             In d dangerous
             /\ Contains (ToUpper upperTable sql) (runes d) = true
             /\ validateSQL upperTable sql = Some (dangerMessage d)).
  { intros Hup sql danger Hin Hc.
    rewrite <- (@dangerous_TrimSpace upperTable Hup danger sql Hin) in Hc.
    destruct (Htrim sql danger Hin Hc) as (d & Hd & Hcd & Hv).
    exists d. repeat split; auto.
    now rewrite (@dangerous_TrimSpace upperTable Hup d sql Hd) in Hcd. }
  split; [|split; [exact Htrim|split; [|split; [|split; [|split]]]]].
  - intros sql H. unfold validateSQL. rewrite H. reflexivity.
  - intros Hup. split; [exact (Hmain Hup)|].
    intros pre variant post danger Hin Hv.
    destruct (Hmain Hup (pre ++ variant ++ post) danger Hin) as (d & Hd & _ & H).
    + apply Contains_iff.
      exists (ToUpper upperTable pre), (ToUpper upperTable post).
      unfold ToUpper in *. now rewrite !map_app, Hv.
    + eauto.
  - intros d [<-|[<-|[<-|[]]]]; discriminate.
  - intros sql c msg H. now apply apply_invalid.
  - vm_compute. reflexivity.
  - vm_compute. reflexivity.
Qed.

Lemma C7_validation_blocks_witness :
  (forall r, IsSpace r = true -> IsSpace (plainTable r) = true)
  /\ validateSQL plainTable (runes "   ") = Some emptyMessage
  /\ (exists d,
         In d dangerous
         /\ validateSQL plainTable (runes "select 1; " ++ runes "Truncate Database" ++ runes " x")
            = Some (dangerMessage d))
  /\ ApplyMigration plainTable 7 (runes "Drop Schema s;") (idle demoServer [])
     = ((mkResult false [] 0%Z 0%Z
                  "SQL validation failed: dangerous operation detected: DROP SCHEMA"
                  0%Z,
         Some "dangerous operation detected: DROP SCHEMA"%string),
        idle demoServer []).
Proof.
  assert (Hup : forall r, IsSpace r = true -> IsSpace (plainTable r) = true).
  { intros r H. exact H. }
  pose proof (@C7_validation_blocks plainTable demoServer 7) as H.
  split; [exact Hup|]. split; [|split].
  - exact (proj1 H (runes "   ") eq_refl).
  - exact (proj2 (proj1 (proj2 (proj2 H)) Hup)
                 (runes "select 1; ") (runes "Truncate Database") (runes " x")
                 "TRUNCATE DATABASE"%string
                 (or_intror (or_intror (or_introl eq_refl))) eq_refl).
  - exact (proj1 (proj2 (proj2 (proj2 (proj2 H)))) (runes "Drop Schema s;")
                 (idle demoServer []) _ eq_refl).
Defined.

(* ================================================================== *)
(** * The accumulator *)
(* ================================================================== *)

Lemma IndexRune_none (c : rune) (s : Str) : ~ In c s -> IndexRune s c = None.
Proof.
  induction s as [|x s IH]; cbn; auto.
  intros H. destruct (N.eqb_spec x c) as [->|_]; [tauto|].
  rewrite IH; tauto.
Qed.

Lemma IndexRune_app (c : rune) (a b : Str) :
  ~ In c a -> IndexRune (a ++ c :: b) c = Some (List.length a).
Proof.
  induction a as [|x a IH]; cbn.
  - now rewrite N.eqb_refl.
  - intros H. destruct (N.eqb_spec x c) as [->|_]; [tauto|].
    rewrite IH; tauto.
Qed.

Lemma skipn_past (a b : Str) (c : rune) :
  skipn (S (List.length a)) (a ++ c :: b) = b.
Proof. induction a; cbn; auto. Qed.

Lemma TrimSuffix1_snoc (x : Str) (c : rune) : TrimSuffix1 (x ++ [c]) c = x.
Proof.
  unfold TrimSuffix1. rewrite rev_app_distr. cbn.
  now rewrite N.eqb_refl, rev_involutive.
Qed.

Lemma TrimSuffix1_other (s : Str) (c : rune) :
  (forall x, s <> x ++ [c]) -> TrimSuffix1 s c = s.
Proof.
  intros H. unfold TrimSuffix1. destruct (rev s) as [|x r] eqn:E; auto.
  destruct (N.eqb_spec x c) as [->|_]; auto.
  exfalso. apply (H (rev r)).
  rewrite <- (rev_involutive s), E. reflexivity.
Qed.

(** A name that neither starts nor ends with the rune is left alone, and
    loses the rune when it is wrapped in it. *)
Lemma Trim1_bare (q a z : rune) (x m m' : Str) :
  x = a :: m -> x = m' ++ [z] -> a <> q -> z <> q ->
  Trim1 x q = x /\ Trim1 (q :: x ++ [q]) q = x.
Proof.
  intros Ha Hz Haq Hzq.
  assert (Pa : N.eqb q a = false) by (apply N.eqb_neq; congruence).
  assert (Pz : N.eqb q z = false) by (apply N.eqb_neq; congruence).
  assert (Hend : dropWhileEnd (N.eqb q) x = x).
  { rewrite Hz. unfold dropWhileEnd. rewrite rev_app_distr. cbn.
    rewrite Pz. cbn. now rewrite rev_involutive. }
  assert (Hfront : dropWhile (N.eqb q) x = x).
  { rewrite Ha. cbn. now rewrite Pa. }
  unfold Trim1. split.
  - now rewrite Hfront.
  - cbn [dropWhile]. rewrite N.eqb_refl.
    assert (E : dropWhile (N.eqb q) (x ++ [q]) = x ++ [q]).
    { rewrite Ha. cbn. now rewrite Pa. }
    rewrite E. unfold dropWhileEnd. rewrite rev_app_distr. cbn.
    rewrite N.eqb_refl. exact Hend.
Qed.

(** The loop passes over tokens that are not the keyword. *)
Lemma tableLoop_skip (upperTable : rune -> rune) (pre l : list Str) :
  Forall (fun p => ToUpper upperTable p <> runes "TABLE") pre ->
  tableLoop upperTable (pre ++ l) = tableLoop upperTable l.
Proof.
  induction 1 as [|p pre Hp _ IH]; cbn [app tableLoop]; auto.
  now rewrite (proj2 (Str_eqb_neq _ _) Hp).
Qed.

(** C6, as the code has it.  For every statement whose trimmed text
    begins, in any case, with CREATE TABLE, the name is looked for among
    the white-space separated tokens, at the first token that is TABLE in
    any case; when the statement starts with the two keywords this is the
    second token.  The name is the cleaned token after it, or the cleaned
    fourth token after it when the next one is IF.  When TABLE is the
    last token the name is empty; when IF is followed by fewer than three
    tokens the search goes on in the tokens after TABLE; when no token is
    TABLE, as in CREATE TABLESPACE, the name is empty.  Cleaning drops the
    token's prefix up to and including its FIRST dot when that dot is not
    the first rune of the token, and leaves a token without dot, or
    starting with a dot, as it is; it then drops one trailing
    parenthesis, when the token ends with one, and the double quotes at
    both ends.  The loop of [ApplyMigration] appends the extracted name
    to the created tables when it is not empty. *)
Theorem C6_table_name_extraction :
  forall upperTable s,
    let stmt := TrimSpace s in
    HasPrefix (ToUpper upperTable stmt) (runes "CREATE TABLE") = true ->
    (forall pre kw rest,
        Fields stmt = pre ++ kw :: rest ->
        Forall (fun p => ToUpper upperTable p <> runes "TABLE") pre ->
        ToUpper upperTable kw = runes "TABLE" ->
        (forall name more,
            rest = name :: more -> ToUpper upperTable name <> runes "IF" ->
            extractTableName upperTable stmt = cleanName name)
        /\ (forall kw1 kw2 kw3 name more,
               rest = kw1 :: kw2 :: kw3 :: name :: more ->
               ToUpper upperTable kw1 = runes "IF" ->
               extractTableName upperTable stmt = cleanName name)
        /\ (rest = [] -> extractTableName upperTable stmt = [])
        /\ (forall kw1 more,
               rest = kw1 :: more ->
               ToUpper upperTable kw1 = runes "IF" ->
               (List.length more < 3)%nat ->
               extractTableName upperTable stmt = tableLoop upperTable rest))
    /\ (forall c t rest,
           Fields stmt = c :: t :: rest ->
           ToUpper upperTable c = runes "CREATE" ->
           ToUpper upperTable t = runes "TABLE" ->
           (forall name more,
               rest = name :: more -> ToUpper upperTable name <> runes "IF" ->
               extractTableName upperTable stmt = cleanName name)
           /\ (forall kw1 kw2 kw3 name more,
                  rest = kw1 :: kw2 :: kw3 :: name :: more ->
                  ToUpper upperTable kw1 = runes "IF" ->
                  extractTableName upperTable stmt = cleanName name))
    /\ (Forall (fun p => ToUpper upperTable p <> runes "TABLE") (Fields stmt) ->
        extractTableName upperTable stmt = [])
    /\ (forall tables,
           trackTables upperTable stmt tables
           = if isEmpty (extractTableName upperTable stmt) then tables
             else tables ++ [extractTableName upperTable stmt])
    /\ (forall a b,
           a <> [] -> ~ In r_dot a ->
           cleanName (a ++ r_dot :: b) = Trim1 (TrimSuffix1 b r_lparen) r_dquote)
    /\ (forall tok,
           ~ In r_dot tok \/ (exists b, tok = r_dot :: b) ->
           cleanName tok = Trim1 (TrimSuffix1 tok r_lparen) r_dquote)
    /\ (forall x, TrimSuffix1 (x ++ [r_lparen]) r_lparen = x)
    /\ (forall tok, (forall x, tok <> x ++ [r_lparen]) -> TrimSuffix1 tok r_lparen = tok)
    /\ (forall x a m z m',
           x = a :: m -> x = m' ++ [z] -> a <> r_dquote -> z <> r_dquote ->
           Trim1 x r_dquote = x /\ Trim1 (r_dquote :: x ++ [r_dquote]) r_dquote = x).
Proof.
  intros upperTable s stmt Hpre.
  assert (Hx : extractTableName upperTable stmt
               = tableLoop upperTable (Fields stmt)).
  { unfold extractTableName. unfold stmt at 1. rewrite TrimSpace_idem.
    fold stmt. now rewrite Hpre. }
  assert (Hgen : forall pre kw rest,
             Fields stmt = pre ++ kw :: rest ->
             Forall (fun p => ToUpper upperTable p <> runes "TABLE") pre ->
             ToUpper upperTable kw = runes "TABLE" ->
             (forall name more,
                 rest = name :: more -> ToUpper upperTable name <> runes "IF" ->
                 extractTableName upperTable stmt = cleanName name)
             /\ (forall kw1 kw2 kw3 name more,
                    rest = kw1 :: kw2 :: kw3 :: name :: more ->
                    ToUpper upperTable kw1 = runes "IF" ->
                    extractTableName upperTable stmt = cleanName name)
             /\ (rest = [] -> extractTableName upperTable stmt = [])
             /\ (forall kw1 more,
                    rest = kw1 :: more ->
                    ToUpper upperTable kw1 = runes "IF" ->
                    (List.length more < 3)%nat ->
                    extractTableName upperTable stmt = tableLoop upperTable rest)).
  { intros pre kw rest Hf Hno Hkw.
    assert (Hloop : extractTableName upperTable stmt
                    = match rest with
                      | tableName :: _ =>
                          if Str_eqb (ToUpper upperTable tableName) (runes "IF") then
                            match nth_error rest 3 with
                            | Some t => cleanName t
                            | None => tableLoop upperTable rest
                            end
                          else cleanName tableName
                      | [] => tableLoop upperTable rest
                      end).
    { rewrite Hx, Hf, tableLoop_skip by assumption. cbn [tableLoop].
      rewrite Hkw.
      replace (Str_eqb (runes "TABLE") (runes "TABLE")) with true by reflexivity.
      reflexivity. }
    split; [|split; [|split]].
    + intros name more -> Hne. rewrite Hloop.
      now rewrite (proj2 (Str_eqb_neq _ _) Hne).
    + intros kw1 kw2 kw3 name more -> Hif. rewrite Hloop, Hif. reflexivity.
    + intros ->. rewrite Hloop. reflexivity.
    + intros kw1 more -> Hif Hlen. rewrite Hloop, Hif.
      replace (Str_eqb (runes "IF") (runes "IF")) with true by reflexivity.
      destruct more as [|m1 [|m2 [|m3 more]]]; cbn in Hlen; try lia; reflexivity. }
  split; [exact Hgen|].
  split; [|split; [|split; [|split; [|split; [|split; [|split]]]]]].
  - intros c t rest Hf Hc Ht.
    destruct (Hgen [c] t rest Hf) as (H1 & H2 & _); auto.
    constructor; [|constructor]. rewrite Hc. discriminate.
  - intros Hno. rewrite Hx, <- (app_nil_r (Fields stmt)).
    now rewrite tableLoop_skip.
  - intros tables. unfold trackTables. rewrite Hpre. reflexivity.
  - intros a b Ha Hdot. unfold cleanName.
    rewrite IndexRune_app by assumption.
    destruct a as [|x a]; [congruence|]. cbn [List.length].
    change (S (List.length a)) with (List.length (x :: a)).
    now rewrite skipn_past.
  - intros tok [Hdot|[b ->]]; unfold cleanName.
    + now rewrite IndexRune_none.
    + reflexivity.
  - intros x. apply TrimSuffix1_snoc.
  - intros tok H. now apply TrimSuffix1_other.
  - intros x a m z m' Ha Hz Haq Hzq. eapply Trim1_bare; eauto.
Qed.

Lemma C6_table_name_extraction_witness :
  extractTableName plainTable (runes "CREATE TABLE public.users (id int)")
  = runes "users"
  /\ extractTableName plainTable (runes "create table if not exists public.t1( id int)")
     = runes "t1"
  /\ extractTableName plainTable (runes "CREATE TABLESPACE fast LOCATION '/x'") = [].
Proof.
  split; [|split].
  - refine (proj1 (proj1 (@C6_table_name_extraction plainTable
                     (runes "CREATE TABLE public.users (id int)") eq_refl)
                     [runes "CREATE"] (runes "TABLE")
                     [runes "public.users"; runes "(id"; runes "int)"]
                     eq_refl _ eq_refl)
                  (runes "public.users") [runes "(id"; runes "int)"] eq_refl _).
    + repeat constructor. intros H. vm_compute in H. discriminate H.
    + intros H. vm_compute in H. discriminate H.
  - refine (proj1 (proj2 (proj1 (@C6_table_name_extraction plainTable
                     (runes "create table if not exists public.t1( id int)") eq_refl)
                     [runes "create"] (runes "table")
                     [runes "if"; runes "not"; runes "exists"; runes "public.t1(";
                      runes "id"; runes "int)"]
                     eq_refl _ eq_refl))
                  (runes "if") (runes "not") (runes "exists") (runes "public.t1(")
                  [runes "id"; runes "int)"] eq_refl eq_refl).
    repeat constructor. intros H. vm_compute in H. discriminate H.
  - refine (proj1 (proj2 (proj2 (@C6_table_name_extraction plainTable
                     (runes "CREATE TABLESPACE fast LOCATION '/x'") eq_refl))) _).
    vm_compute. repeat constructor; intros H; discriminate H.
Defined.

(** C6 as stated fails in two ways.  On a token with two dots the code
    drops the prefix up to the first dot, the specification up to the
    last.  And the code looks for a token that is TABLE, where the
    specification skips the keywords the text begins with: CREATE
    TABLESPACE begins with CREATE TABLE and has no such token, so no name
    is recorded where the specification takes the next token; and with a
    second token that only begins with TABLE the name is taken after a
    later TABLE. *)
Lemma C6_extraction_counterexample :
  let dots := runes "CREATE TABLE a.b.c (id int)" in
  let space := runes "CREATE TABLESPACE fast LOCATION '/x'" in
  let later := runes "CREATE TABLEX y TABLE z" in
  (Fields dots = [runes "CREATE"; runes "TABLE"; runes "a.b.c"; runes "(id"; runes "int)"]
   /\ extractTableName plainTable dots = runes "b.c"
   /\ specCleanName (runes "a.b.c") = runes "c"
   /\ specTableName plainTable dots = runes "c")
  /\ (HasPrefix (ToUpper plainTable (TrimSpace space)) (runes "CREATE TABLE") = true
      /\ extractTableName plainTable space = []
      /\ trackTables plainTable space [] = []
      /\ specTableName plainTable space = runes "fast")
  /\ (HasPrefix (ToUpper plainTable (TrimSpace later)) (runes "CREATE TABLE") = true
      /\ extractTableName plainTable later = runes "z"
      /\ trackTables plainTable later [] = [runes "z"]
      /\ specTableName plainTable later = runes "y").
Proof. cbv zeta. repeat split; vm_compute; reflexivity. Qed.

(* ================================================================== *)
(** * Further properties of the splitter *)
(* ================================================================== *)

Module SplitterMore.

Local Open Scope N_scope.

Lemma dropWhile_suffix (p : rune -> bool) (s : Str) :
  exists l, s = l ++ dropWhile p s.
Proof.
  induction s as [|c s [l IH]]; cbn.
  - exists []. reflexivity.
  - destruct (p c).
    + exists (c :: l). cbn. now rewrite <- IH.
    + exists []. reflexivity.
Qed.

Lemma TrimSpace_infix (b : Str) : exists l r, b = l ++ TrimSpace b ++ r.
Proof.
  unfold TrimSpace, dropWhileEnd.
  destruct (dropWhile_suffix IsSpace b) as [l Hl].
  destruct (dropWhile_suffix IsSpace (rev (dropWhile IsSpace b))) as [r Hr].
  exists l, (rev r). rewrite Hl at 1. f_equal.
  rewrite <- rev_app_distr, <- Hr, rev_involutive. reflexivity.
Qed.

(** What an iteration does to the buffer away from a semicolon: the rune
    is copied, with the rune after it when the iteration consumed two. *)
Lemma step_buf st char rest :
  char <> r_semi ->
  buf (fst (step st char rest))
  = buf st ++ (if snd (step st char rest)
               then match rest with c2 :: _ => [char; c2] | [] => [char] end
               else [char]).
Proof.
  intros Hc. unfold step.
  set (st2 := commentBlock (dollarBlock st char rest) char rest).
  assert (H2 : buf st2 = buf st).
  { unfold st2. rewrite (proj2 (commentBlock_statements _ _ _)).
    apply dollarBlock_statements. }
  apply N.eqb_neq in Hc. rewrite Hc. cbn [andb].
  destruct (negb (inComment st2) && negb (inDollarQuote st2) && (char =? r_quote)).
  - cbn [andb]. destruct (inString st2); cbn [andb negb].
    + destruct rest as [|c2 rest2]; cbn.
      * now rewrite H2.
      * destruct (c2 =? r_quote); cbn; rewrite H2, <- ?app_assoc; reflexivity.
    + cbn. now rewrite H2.
  - cbn. now rewrite H2.
Qed.

Lemma emit_length (stmts : list Str) (b : Str) :
  (List.length (emit stmts b) <= S (List.length stmts))%nat.
Proof.
  unfold emit. destruct (isEmpty _); [lia|]. rewrite length_app. cbn. lia.
Qed.

Lemma emit_infix (sql : Str) (stmts : list Str) (before b rest : Str) :
  sql = before ++ b ++ rest ->
  Forall (fun s => exists pre post, sql = pre ++ s ++ post) stmts ->
  Forall (fun s => exists pre post, sql = pre ++ s ++ post) (emit stmts b).
Proof.
  intros Hsql H. unfold emit. destruct (isEmpty _); auto.
  apply Forall_app. split; auto. constructor; auto.
  destruct (TrimSpace_infix b) as (l & r & Hb).
  exists (before ++ l), (r ++ rest). rewrite Hsql. rewrite Hb at 1.
  now rewrite <- !app_assoc.
Qed.

Lemma Reach_invariant sql st rest : Reach sql st rest -> runInvariant sql st rest.
Proof.
  intros H.
  induction H as [|st char rest st' _ IH E|st char c2 rest st' _ IH E].
  - repeat split; cbn; auto. exists []. reflexivity.
  - destruct IH as ((before & Hsql) & Hall & Hcount).
    destruct (N.eq_dec char r_semi) as [->|Hne].
    + rewrite step_semi in E. cbn in Hcount.
      destruct (N.eq_dec r_semi r_semi) as [_|]; [|congruence].
      destruct (normal st); injection E as <-.
      * repeat split; cbn.
        -- exists (before ++ buf st ++ [r_semi]). rewrite Hsql.
           now rewrite <- !app_assoc.
        -- eapply emit_infix; eauto.
        -- pose proof (emit_length (statements st) (buf st)). lia.
      * repeat split; cbn; auto.
        -- exists before. rewrite Hsql. now rewrite <- !app_assoc.
        -- lia.
    + pose proof (step_statements st rest Hne) as Hs.
      pose proof (step_buf st rest Hne) as Hb.
      rewrite E in Hs, Hb. cbn in Hs, Hb.
      repeat split.
      * exists before. rewrite Hb, Hsql. now rewrite <- !app_assoc.
      * now rewrite Hs.
      * rewrite Hs. cbn in Hcount.
        destruct (N.eq_dec char r_semi); [congruence|]. exact Hcount.
  - destruct IH as ((before & Hsql) & Hall & Hcount).
    assert (Hne : char <> r_semi).
    { intros ->. rewrite step_semi in E. destruct (normal st); discriminate. }
    pose proof (step_statements st (c2 :: rest) Hne) as Hs.
    pose proof (step_buf st (c2 :: rest) Hne) as Hb.
    rewrite E in Hs, Hb. cbn in Hs, Hb.
    repeat split.
    + exists before. rewrite Hb, Hsql. now rewrite <- !app_assoc.
    + now rewrite Hs.
    + rewrite Hs. cbn in Hcount.
      destruct (N.eq_dec char r_semi); [congruence|].
      destruct (N.eq_dec c2 r_semi); lia.
Qed.

End SplitterMore.

Import SplitterMore.

(** X1.  Every statement the splitter returns is a contiguous piece of
    the script: the script is some text, the statement, and some text. *)
Theorem X1_statements_are_pieces_of_the_script :
  forall sql,
    Forall (fun s => exists pre post, sql = pre ++ s ++ post)
           (splitSQLStatements sql).
Proof.
  intros sql.
  destruct (Reach_invariant (Reach_scan (reach_start sql)))
    as ((before & Hsql) & Hall & _).
  unfold splitSQLStatements, finish. destruct (isEmpty _); auto.
  eapply emit_infix; eauto.
Qed.

(** X2.  The splitter returns at most one statement more than the script
    has semicolons. *)
Theorem X2_statement_count_bound :
  forall sql,
    (List.length (splitSQLStatements sql)
     <= count_occ N.eq_dec sql r_semi + 1)%nat.
Proof.
  intros sql.
  destruct (Reach_invariant (Reach_scan (reach_start sql)))
    as (_ & _ & Hcount).
  cbn in Hcount.
  unfold splitSQLStatements, finish. destruct (isEmpty _); [lia|].
  pose proof (emit_length (statements (scan initial sql)) (buf (scan initial sql))).
  lia.
Qed.

(** Outside every mode, a rune that opens nothing is copied. *)
Lemma step_copy (st : Scanner) (char : rune) (rest : Str) :
  normal st = true ->
  char <> r_dollar -> char <> r_quote -> char <> r_semi ->
  (char =? r_dash) && nextIs rest r_dash = false ->
  step st char rest = (write st char, false).
Proof.
  unfold normal. intros H H1 H3 H4 H2.
  apply andb_prop in H. destruct H as [H Hd].
  apply andb_prop in H. destruct H as [Hs Hc].
  apply negb_true_iff in Hs, Hc, Hd.
  apply N.eqb_neq in H1, H3, H4.
  unfold step, dollarBlock, commentBlock.
  rewrite H1. cbn. rewrite Hs, Hd, Hc. cbn. rewrite H2. cbn.
  rewrite Hc, Hd, Hs, H3, H4. cbn. reflexivity.
Qed.

Lemma scan_plain (rs : Str) :
  forall st,
    plainScript rs = true -> normal st = true ->
    finish (scan st rs)
    = statements st
      ++ filter (fun s => negb (isEmpty s))
                (map TrimSpace (splitOn r_semi (buf st) rs)).
Proof.
  induction rs as [|c rs IH]; intros st Hp Hn.
  - cbn. unfold finish, emit.
    destruct (isEmpty (buf st)) eqn:E.
    + apply isEmpty_nil in E. rewrite E. cbn. now rewrite app_nil_r.
    + destruct (isEmpty (TrimSpace (buf st))); cbn; auto. now rewrite app_nil_r.
  - cbn [plainScript] in Hp.
    apply andb_prop in Hp. destruct Hp as [Hp Hrs].
    apply andb_prop in Hp. destruct Hp as [Hp Hdash].
    apply andb_prop in Hp. destruct Hp as [Hdollar Hquote].
    apply negb_true_iff in Hdollar, Hquote, Hdash.
    apply N.eqb_neq in Hdollar, Hquote.
    cbn [scan splitOn]. destruct (N.eqb_spec c r_semi) as [->|Hsemi].
    + rewrite step_semi, Hn. rewrite IH; auto. cbn. unfold emit.
      destruct (isEmpty (TrimSpace (buf st))); cbn; auto.
      now rewrite <- app_assoc.
    + rewrite step_copy by assumption. rewrite IH; auto.
Qed.

(** X3.  On a script that holds no dollar, no quote and no two dashes in a
    row, the splitter does what cutting at every semicolon does: the
    pieces between semicolons, trimmed, without the empty ones. *)
Theorem X3_plain_scripts_split_at_every_semicolon :
  forall sql,
    plainScript sql = true -> splitSQLStatements sql = naiveSplit sql.
Proof.
  intros sql H. unfold splitSQLStatements, naiveSplit.
  now rewrite scan_plain.
Qed.

Lemma X3_plain_scripts_split_at_every_semicolon_witness :
  splitSQLStatements (runes "SELECT 1 - 2 ; ;SELECT 3")
  = [runes "SELECT 1 - 2"; runes "SELECT 3"].
Proof.
  exact (@X3_plain_scripts_split_at_every_semicolon
           (runes "SELECT 1 - 2 ; ;SELECT 3") eq_refl).
Defined.

(* ================================================================== *)
(** * Further properties of the validator and the accumulator *)
(* ================================================================== *)

Lemma firstDanger_none (u : Str) (ds : list string) :
  firstDanger u ds = None <-> forall d, In d ds -> Contains u (runes d) = false.
Proof.
  induction ds as [|d0 ds IH]; cbn.
  - split; auto. intros _ d [].
  - destruct (Contains u (runes d0)) eqn:E.
    + split; [discriminate|]. intros H. rewrite (H d0) in E; auto. discriminate.
    + rewrite IH. split.
      * intros H d [<-|Hd]; auto.
      * intros H d Hd. apply H. auto.
Qed.

(** X4.  [validateSQL] accepts a script exactly when its trimmed text is
    not empty and its upper-cased trimmed text contains no entry of the
    denylist: nothing else is ever refused. *)
Theorem X4_validation_accepts_exactly :
  forall upperTable sql,
    validateSQL upperTable sql = None
    <-> TrimSpace sql <> []
        /\ forall d, In d dangerous ->
             Contains (ToUpper upperTable (TrimSpace sql)) (runes d) = false.
Proof.
  intros upperTable sql. unfold validateSQL.
  destruct (TrimSpace sql) as [|c t] eqn:E; cbn [isEmpty].
  - split; [discriminate|]. intros [H _]. congruence.
  - destruct (firstDanger _ dangerous) as [d|] eqn:F.
    + split; [discriminate|]. intros [_ H].
      apply firstDanger_none in H. congruence.
    + split; auto. intros _. split; [discriminate|].
      now apply firstDanger_none.
Qed.

Module NameFacts.

Lemma Forall_dropWhile (Q : rune -> Prop) (p : rune -> bool) (s : Str) :
  Forall Q s -> Forall Q (dropWhile p s).
Proof.
  induction 1 as [|c s Hc Hs IH]; cbn; auto.
  destruct (p c); auto.
Qed.

Lemma Forall_dropWhileEnd (Q : rune -> Prop) (p : rune -> bool) (s : Str) :
  Forall Q s -> Forall Q (dropWhileEnd p s).
Proof.
  intros H. unfold dropWhileEnd.
  apply Forall_rev, Forall_dropWhile, Forall_rev, H.
Qed.

Lemma Forall_skipn (Q : rune -> Prop) (n : nat) (s : Str) :
  Forall Q s -> Forall Q (skipn n s).
Proof.
  revert s. induction n as [|n IH]; intros s H; cbn; auto.
  destruct H; auto.
Qed.

Lemma Forall_TrimSuffix1 (Q : rune -> Prop) (c : rune) (s : Str) :
  Forall Q s -> Forall Q (TrimSuffix1 s c).
Proof.
  intros H. unfold TrimSuffix1.
  destruct (rev s) as [|x r] eqn:E; auto.
  destruct (N.eqb x c); auto.
  apply Forall_rev. apply Forall_rev in H. rewrite E in H.
  now inversion H.
Qed.

(** Cleaning a token only removes runes from it. *)
Lemma Forall_cleanName (Q : rune -> Prop) (t : Str) :
  Forall Q t -> Forall Q (cleanName t).
Proof.
  intros H. unfold cleanName, Trim1.
  apply Forall_dropWhileEnd, Forall_dropWhile, Forall_TrimSuffix1.
  destruct (IndexRune t r_dot) as [[|n]|]; auto.
  now apply Forall_skipn.
Qed.

Lemma fieldsFrom_spaceFree (s : Str) :
  forall cur, spaceFree cur -> Forall spaceFree (fieldsFrom cur s).
Proof.
  induction s as [|c s IH]; intros cur Hcur; cbn.
  - destruct (isEmpty cur); constructor; auto. now apply Forall_rev.
  - destruct (IsSpace c) eqn:E.
    + destruct (isEmpty cur).
      * apply IH. constructor.
      * constructor; [now apply Forall_rev|]. apply IH. constructor.
    + apply IH. constructor; auto.
Qed.

Lemma tableLoop_spaceFree upperTable (parts : list Str) :
  Forall spaceFree parts -> spaceFree (tableLoop upperTable parts).
Proof.
  induction parts as [|part after IH]; intros H; cbn [tableLoop].
  - constructor.
  - inversion H as [|? ? Hp Ha]; subst.
    destruct (Str_eqb _ _); auto.
    destruct after as [|tableName more]; auto.
    destruct (Str_eqb _ _).
    + destruct (nth_error (tableName :: more) 3) as [t|] eqn:E; auto.
      apply Forall_cleanName. apply nth_error_In in E.
      rewrite Forall_forall in Ha. now apply Ha.
    + apply Forall_cleanName. now inversion Ha.
Qed.

Lemma extractTableName_spaceFree upperTable (stmt : Str) :
  spaceFree (extractTableName upperTable stmt).
Proof.
  unfold extractTableName.
  destruct (negb _); [constructor|].
  apply tableLoop_spaceFree. apply fieldsFrom_spaceFree. constructor.
Qed.

End NameFacts.

Import NameFacts.

(** X5.  A name [extractTableName] returns holds no white space, whatever
    the statement. *)
Theorem X5_table_names_hold_no_space :
  forall upperTable stmt,
    Forall (fun r => IsSpace r = false) (extractTableName upperTable stmt).
Proof.
  intros upperTable stmt. apply extractTableName_spaceFree.
Qed.

Lemma substring_all (s : string) : substring 0 (String.length s) s = s.
Proof. induction s as [|a s IH]; cbn; congruence. Qed.

Lemma substring_length_exact (s : string) (n : nat) :
  (n <= String.length s)%nat -> String.length (substring 0 n s) = n.
Proof.
  revert s. induction n as [|n IH]; intros [|a s] H; cbn in *; try lia.
  rewrite IH; lia.
Qed.

(** X6.  The excerpt of a failing statement is the whole statement when
    its UTF-8 text has at most 100 bytes, and exactly its first 100 bytes
    otherwise. *)
Theorem X6_excerpt_is_exact :
  forall stmt,
    ((String.length (GoString stmt) <= 100)%nat -> excerpt stmt = GoString stmt)
    /\ ((100 < String.length (GoString stmt))%nat ->
        String.length (excerpt stmt) = 100%nat
        /\ prefix (excerpt stmt) (GoString stmt) = true).
Proof.
  intros stmt. unfold excerpt. split.
  - intros H. rewrite Nat.min_l by assumption. apply substring_all.
  - intros H. rewrite Nat.min_r by lia. split.
    + apply substring_length_exact. lia.
    + apply substring_prefix.
Qed.

Lemma X6_excerpt_is_exact_witness :
  excerpt (runes "BOGUS") = "BOGUS"%string.
Proof.
  exact (proj1 (X6_excerpt_is_exact (runes "BOGUS"))
               ltac:(vm_compute; repeat constructor)).
Defined.

(* ================================================================== *)
(** * Further properties of the executor *)
(* ================================================================== *)

(** X7.  [ApplyMigration] returns a nil error exactly when the result says
    success, and exactly then the result's error message is empty: a
    caller that tests the error alone never takes a failure for a
    success. *)
Theorem X7_error_iff_failure :
  forall upperTable (srv : Server) elapsed sql (c : Conn srv),
    let out := ApplyMigration upperTable elapsed sql c in
    (snd (fst out) = None <-> Success (fst (fst out)) = true)
    /\ (Error (fst (fst out)) = EmptyString <-> Success (fst (fst out)) = true).
Proof.
  intros upperTable srv elapsed sql c out. unfold out.
  destruct (apply_outcomes upperTable elapsed sql c)
    as [(msg & Hv & E)|[(e & Hv & Hb & E)
       |[(pre & s & post & w & t & n & e & Hv & Hb & Hs & Hrun & He & E)
       |[(w & t & n & e & Hv & Hb & Hrun & Hc & E)
       |(w & t & n & Hv & Hb & Hrun & Hc & E)]]]];
    rewrite E; cbn; repeat split; auto; discriminate.
Qed.

(** X8.  The calls [ApplyMigration] makes on the connection, by cause.
    When validation fails it makes none: the connection is returned as it
    was.  When validation passes and the begin fails, the begin is its
    only call.  When the begin succeeds: if the statement after the
    statements [pre] is the first the server refuses, the calls are the
    begin, the executions of [pre] and of that statement, in order, and a
    rollback; if the server accepts every statement, they are the begin,
    the executions of all statements, in order, and a commit, followed by
    a rollback exactly when the commit fails.  So the log after a begin
    that succeeded is always the begin, the first k statements of the
    splitter's result and a closing, and no transaction is left open. *)
Theorem X8_calls_are_bracketed :
  forall upperTable (srv : Server) elapsed sql (c : Conn srv),
    let out := ApplyMigration upperTable elapsed sql c in
    let stmts := splitSQLStatements sql in
    (validateSQL upperTable sql <> None -> snd out = c)
    /\ (validateSQL upperTable sql = None ->
        beginFails srv (durable c) <> None ->
        calls (snd out) = calls c ++ [CallBegin]
        /\ tx (snd out) = tx c /\ durable (snd out) = durable c)
    /\ (validateSQL upperTable sql = None ->
        beginFails srv (durable c) = None ->
        tx (snd out) = None
        /\ (forall pre s post w tables total e,
               stmts = pre ++ s :: post ->
               runAll upperTable srv (durable c) pre [] 0%Z = Some (w, tables, total) ->
               serverExec srv w s = ExecErr e ->
               calls (snd out)
               = calls c ++ [CallBegin] ++ map CallExec (pre ++ [s])
                 ++ [CallRollback])
        /\ (forall w tables total,
               runAll upperTable srv (durable c) stmts [] 0%Z
               = Some (w, tables, total) ->
               calls (snd out)
               = calls c ++ [CallBegin] ++ map CallExec stmts
                 ++ match commitFails srv w with
                    | Some _ => [CallCommit; CallRollback]
                    | None => [CallCommit]
                    end)
        /\ (exists k closing,
               (k <= List.length stmts)%nat
               /\ calls (snd out)
                  = calls c ++ [CallBegin] ++ map CallExec (firstn k stmts)
                    ++ closing
               /\ (closing = [CallRollback]
                   \/ (k = List.length stmts
                       /\ (closing = [CallCommit]
                           \/ closing = [CallCommit; CallRollback]))))).
Proof.
  intros upperTable srv elapsed sql c out stmts. unfold out.
  split; [|split].
  - destruct (validateSQL upperTable sql) as [msg|] eqn:Hv; [|congruence].
    intros _. erewrite apply_invalid by eassumption. reflexivity.
  - intros Hv Hb.
    destruct (beginFails srv (durable c)) as [e|] eqn:Hb'; [|congruence].
    erewrite apply_begin_fails by eassumption. cbn [snd calls tx durable]. auto.
  - intros Hv Hb. split; [|split; [|split]].
    + destruct (apply_outcomes upperTable elapsed sql c)
        as [(msg & Hv' & E)|[(e & _ & Hb' & E)
           |[(pre & s & post & w & t & n & e & _ & _ & _ & _ & _ & E)
           |[(w & t & n & e & _ & _ & _ & _ & E)
           |(w & t & n & _ & _ & _ & _ & E)]]]];
        try congruence; rewrite E; reflexivity.
    + intros pre s post w tables total e Hs Hrun He.
      erewrite apply_statement_fails by eassumption. reflexivity.
    + intros w tables total Hrun.
      destruct (commitFails srv w) as [e|] eqn:Hc.
      * erewrite apply_commit_fails by eassumption. reflexivity.
      * erewrite apply_succeeds by eassumption. reflexivity.
    + destruct (apply_outcomes upperTable elapsed sql c)
        as [(msg & Hv' & E)|[(e & _ & Hb' & E)
           |[(pre & s & post & w & t & n & e & _ & _ & Hs & _ & _ & E)
           |[(w & t & n & e & _ & _ & _ & _ & E)
           |(w & t & n & _ & _ & _ & _ & E)]]]];
        try congruence; rewrite E; cbn [snd calls].
      * exists (List.length (pre ++ [s])), [CallRollback].
        fold stmts in Hs. rewrite Hs. repeat split; auto.
        -- rewrite !length_app. cbn. lia.
        -- replace (pre ++ s :: post) with ((pre ++ [s]) ++ post)
             by (now rewrite <- app_assoc).
           now rewrite firstn_app, Nat.sub_diag, firstn_all, app_nil_r.
      * exists (List.length stmts), [CallCommit; CallRollback].
        rewrite firstn_all. repeat split; auto.
      * exists (List.length stmts), [CallCommit].
        rewrite firstn_all. repeat split; auto.
Qed.

Lemma X8_calls_are_bracketed_witness :
  let refused := runes "DROP DATABASE d" in
  let failing := runes "CREATE TABLE a (id int); BOGUS; INSERT INTO a VALUES (1)" in
  let passing := runes "CREATE TABLE a (id int); INSERT INTO a VALUES (1)" in
  snd (ApplyMigration plainTable 7 refused (idle demoServer [])) = idle demoServer []
  /\ calls (snd (ApplyMigration plainTable 7 failing (idle demoServer [])))
     = [CallBegin; CallExec (runes "CREATE TABLE a (id int)");
        CallExec (runes "BOGUS"); CallRollback]
  /\ calls (snd (ApplyMigration plainTable 7 passing (idle demoServer [])))
     = [CallBegin; CallExec (runes "CREATE TABLE a (id int)");
        CallExec (runes "INSERT INTO a VALUES (1)"); CallCommit].
Proof.
  cbv zeta. split; [|split].
  - apply (proj1 (@X8_calls_are_bracketed plainTable demoServer 7
                    (runes "DROP DATABASE d") (idle demoServer []))).
    vm_compute. discriminate.
  - exact (proj1 (proj2 (proj2 (proj2 (@X8_calls_are_bracketed plainTable demoServer 7
                    (runes "CREATE TABLE a (id int); BOGUS; INSERT INTO a VALUES (1)")
                    (idle demoServer []))) eq_refl eq_refl))
                 [runes "CREATE TABLE a (id int)"] (runes "BOGUS")
                 [runes "INSERT INTO a VALUES (1)"]
                 [runes "CREATE TABLE a (id int)"] [runes "a"] 0%Z "syntax error"%string
                 eq_refl eq_refl eq_refl).
  - exact (proj1 (proj2 (proj2 (proj2 (proj2 (@X8_calls_are_bracketed plainTable
                    demoServer 7
                    (runes "CREATE TABLE a (id int); INSERT INTO a VALUES (1)")
                    (idle demoServer []))) eq_refl eq_refl)))
                 [runes "CREATE TABLE a (id int)"; runes "INSERT INTO a VALUES (1)"]
                 [runes "a"] 1%Z eq_refl).
Defined.

(** X9.  A script that passes validation and holds no statement, such as
    a lone semicolon, is run as an empty transaction: begin and commit,
    nothing executed, and a success with no table, no row and zero
    statements, the committed contents unchanged. *)
Theorem X9_empty_script_is_an_empty_transaction :
  forall upperTable (srv : Server) elapsed sql (c : Conn srv),
    validateSQL upperTable sql = None ->
    splitSQLStatements sql = [] ->
    beginFails srv (durable c) = None ->
    commitFails srv (durable c) = None ->
    ApplyMigration upperTable elapsed sql c
    = ((mkResult true [] 0%Z elapsed EmptyString 0%Z, None),
       mkConn srv (durable c) None (calls c ++ [CallBegin; CallCommit])).
Proof.
  intros upperTable srv elapsed sql c Hv Hs Hb Hc.
  erewrite apply_succeeds; eauto.
  - rewrite Hs. reflexivity.
  - rewrite Hs. reflexivity.
Qed.

Lemma X9_empty_script_is_an_empty_transaction_witness :
  ApplyMigration plainTable 7 (runes " ; ;") (idle demoServer [])
  = ((mkResult true [] 0%Z 7%Z EmptyString 0%Z, None),
     mkConn demoServer [] None [CallBegin; CallCommit]).
Proof.
  exact (@X9_empty_script_is_an_empty_transaction plainTable demoServer 7
           (runes " ; ;") (idle demoServer []) eq_refl eq_refl eq_refl eq_refl).
Defined.

Lemma wrapInt_range (z : Z) :
  (- 9223372036854775808 <= wrapInt z < 9223372036854775808)%Z.
Proof.
  unfold wrapInt.
  pose proof (Z.mod_pos_bound (z + 9223372036854775808) 18446744073709551616
                ltac:(lia)).
  lia.
Qed.

Lemma runAll_tallies upperTable (srv : Server) (stmts : list Str) :
  forall w tables total w' tables' total',
    runAll upperTable srv w stmts tables total = Some (w', tables', total') ->
    goodTallies tables total -> goodTallies tables' total'.
Proof.
  induction stmts as [|s stmts IH]; intros w tables total w' tables' total' H G.
  - cbn in H. injection H as <- <- <-. exact G.
  - cbn in H. destruct (serverExec srv w s) as [w1 rows|]; [|discriminate].
    apply IH in H; auto. destruct G as [Gt Gn]. split.
    + unfold trackTables. destruct (HasPrefix _ _); auto.
      destruct (isEmpty _) eqn:E; auto.
      apply Forall_app. split; auto. constructor; auto.
      split; [now apply isEmpty_false|apply extractTableName_spaceFree].
    + unfold trackRows. destruct (HasPrefix _ _); auto. apply wrapInt_range.
Qed.

Lemma runAll_tables_length upperTable (srv : Server) (stmts : list Str) :
  forall w tables total w' tables' total',
    runAll upperTable srv w stmts tables total = Some (w', tables', total') ->
    (List.length tables' <= List.length tables + List.length stmts)%nat.
Proof.
  induction stmts as [|s stmts IH]; intros w tables total w' tables' total' H.
  - cbn in H. injection H as <- <- <-. cbn. lia.
  - cbn in H. destruct (serverExec srv w s) as [w1 rows|]; [|discriminate].
    apply IH in H. cbn [List.length].
    assert (List.length (trackTables upperTable s tables)
            <= S (List.length tables))%nat.
    { unfold trackTables. destruct (HasPrefix _ _); [|lia].
      destruct (isEmpty _); [lia|]. rewrite length_app. cbn. lia. }
    lia.
Qed.

(** X10.  Whatever the script and the server, the tables a result reports
    are names that are not empty and hold no white space, there are no
    more of them than statements, and the row count is in the range of a
    64-bit integer. *)
Theorem X10_reported_tallies_are_well_formed :
  forall upperTable (srv : Server) elapsed sql (c : Conn srv),
    let res := fst (fst (ApplyMigration upperTable elapsed sql c)) in
    goodTallies (TablesCreated res) (RowsInserted res)
    /\ (Z.of_nat (List.length (TablesCreated res)) <= StatementsRun res)%Z.
Proof.
  intros upperTable srv elapsed sql c res. unfold res.
  assert (G0 : goodTallies [] 0%Z).
  { split; [constructor|lia]. }
  destruct (apply_outcomes upperTable elapsed sql c)
    as [(msg & Hv & E)|[(e & Hv & Hb & E)
       |[(pre & s & post & w & t & n & e & Hv & Hb & Hs & Hrun & He & E)
       |[(w & t & n & e & Hv & Hb & Hrun & Hc & E)
       |(w & t & n & Hv & Hb & Hrun & Hc & E)]]]];
    rewrite E; cbn [fst TablesCreated RowsInserted StatementsRun List.length];
    try (split; [exact G0|lia]).
  split.
  - eapply runAll_tallies; eauto.
  - apply runAll_tables_length in Hrun. cbn in Hrun. lia.
Qed.

(* ================================================================== *)
(** * Connection strings and runner creation *)
(* ================================================================== *)

Lemma nonEmpty_false (s : string) : Projects.nonEmpty s = false <-> s = EmptyString.
Proof. destruct s; cbn; split; congruence. Qed.

Lemma nonEmpty_true (s : string) : Projects.nonEmpty s = true <-> s <> EmptyString.
Proof. destruct s; cbn; split; congruence. Qed.

(** X11.  A project has no connection string exactly when it has no
    database URL and lacks its reference or its password; the region
    never decides whether there is one. *)
Theorem X11_connection_string_is_empty_iff :
  forall p,
    Projects.GetDatabaseConnectionString p = EmptyString
    <-> Projects.DatabaseURL p = EmptyString
        /\ (Projects.ProjectRef p = EmptyString
            \/ Projects.DBPassword p = EmptyString).
Proof.
  intros p. unfold Projects.GetDatabaseConnectionString.
  destruct (Projects.DatabaseURL p) as [|a u]; cbn [Projects.nonEmpty].
  - destruct (Projects.ProjectRef p) as [|b r]; cbn.
    + tauto.
    + destruct (Projects.DBPassword p) as [|c w]; cbn.
      * tauto.
      * destruct (Projects.Region p); cbn; split; try discriminate;
          intros [_ [H|H]]; discriminate.
  - split; [discriminate|]. intros [H _]. discriminate.
Qed.

Lemma pingRetry_three (ping : nat -> option string) :
  Runner.pingRetry ping 3 0 None
  = match ping 0%nat with
    | None => (None, [Runner.EvPing])
    | Some _ =>
        match ping 1%nat with
        | None => (None, [Runner.EvPing; Runner.EvSleep 2; Runner.EvPing])
        | Some _ =>
            match ping 2%nat with
            | None => (None, [Runner.EvPing; Runner.EvSleep 2; Runner.EvPing;
                              Runner.EvSleep 2; Runner.EvPing])
            | Some e => (Some e, [Runner.EvPing; Runner.EvSleep 2; Runner.EvPing;
                                  Runner.EvSleep 2; Runner.EvPing; Runner.EvSleep 2])
            end
        end
    end.
Proof.
  cbn. destruct (ping 0%nat); auto. destruct (ping 1%nat); auto.
  destruct (ping 2%nat); auto.
Qed.

(** X12.  [NewMigrationRunner] returns a runner exactly when the project
    has a connection string, the pool opens and one of the first three
    pings succeeds.  It pings at most three times and stops at the first
    success: after k failed pings it has pinged k+1 times and slept 2k
    seconds, and it leaves the pool open. *)
Theorem X12_runner_is_created_iff_a_ping_succeeds :
  forall net p,
    let connStr := Projects.GetDatabaseConnectionString p in
    let out := Runner.NewMigrationRunner net p in
    (Runner.countPings (snd out) <= 3)%nat
    /\ ((exists r, fst out = inr r)
        <-> connStr <> EmptyString
            /\ Runner.openFails net connStr = None
            /\ exists k, (k < 3)%nat
                 /\ Runner.pingOutcome net connStr k = None
                 /\ forall j, (j < k)%nat -> Runner.pingOutcome net connStr j <> None)
    /\ (forall k,
           connStr <> EmptyString ->
           Runner.openFails net connStr = None ->
           (k < 3)%nat ->
           Runner.pingOutcome net connStr k = None ->
           (forall j, (j < k)%nat -> Runner.pingOutcome net connStr j <> None) ->
           fst out = inr (Runner.mkRunner p connStr)
           /\ Runner.countPings (snd out) = S k
           /\ Runner.sleptSeconds (snd out) = (2 * Z.of_nat k)%Z
           /\ ~ In Runner.EvClose (snd out)).
Proof.
  intros net p connStr out. unfold out, Runner.NewMigrationRunner. fold connStr.
  destruct (Projects.nonEmpty connStr) eqn:En; cbn [negb].
  2:{ apply nonEmpty_false in En.
      split; [cbn; lia|split; [split|]].
      - intros [r H]. discriminate.
      - intros [H _]. congruence.
      - intros k H. congruence. }
  apply nonEmpty_true in En.
  destruct (Runner.openFails net connStr) as [e|] eqn:Eo.
  { split; [cbn; lia|split; [split|]].
    - intros [r H]. discriminate.
    - intros (_ & H & _). discriminate.
    - intros k _ H. discriminate. }
  rewrite pingRetry_three.
  set (ping := Runner.pingOutcome net connStr).
  assert (Hno : forall l, In Runner.EvClose
                   ([Runner.EvOpen connStr; Runner.EvLimits 180 5 2] ++ l)
                 -> In Runner.EvClose l).
  { intros l [H|[H|H]]; try discriminate. exact H. }
  destruct (ping 0%nat) as [e0|] eqn:E0;
    [destruct (ping 1%nat) as [e1|] eqn:E1;
     [destruct (ping 2%nat) as [e2|] eqn:E2|]|];
    (split; [cbn; lia|split; [split|]]).
  - intros [r H]. discriminate.
  - intros (_ & _ & k & Hk & Hp & _).
    destruct k as [|[|[|k]]]; try lia; try congruence.
  - intros k _ _ Hk Hp _. destruct k as [|[|[|k]]]; try lia; try congruence.
  - intros _. repeat split; auto. exists 2%nat. repeat split; auto.
    intros j Hj. destruct j as [|[|j]]; try lia; try congruence.
  - intros _. eexists. reflexivity.
  - intros k _ _ Hk Hp Hb. destruct k as [|[|[|k]]]; try lia.
    + congruence.
    + congruence.
    + repeat split; auto. intros H. apply Hno in H.
      repeat (destruct H as [H|H]; try discriminate). exact H.
  - intros _. repeat split; auto. exists 1%nat. repeat split; auto.
    intros j Hj. destruct j as [|j]; try lia; try congruence.
  - intros _. eexists. reflexivity.
  - intros k _ _ Hk Hp Hb. destruct k as [|[|[|k]]]; try lia.
    + congruence.
    + repeat split; auto. intros H. apply Hno in H.
      repeat (destruct H as [H|H]; try discriminate). exact H.
    + exfalso. apply (Hb 1%nat); [lia|assumption].
  - intros _. repeat split; auto. exists 0%nat. repeat split; auto.
    intros j Hj. lia.
  - intros _. eexists. reflexivity.
  - intros k _ _ Hk Hp Hb. destruct k as [|[|[|k]]]; try lia.
    + repeat split; auto. intros H. apply Hno in H.
      repeat (destruct H as [H|H]; try discriminate). exact H.
    + exfalso. apply (Hb 0%nat); [lia|assumption].
    + exfalso. apply (Hb 0%nat); [lia|assumption].
Qed.

(** X13.  When the pool opens and the three pings fail,
    [NewMigrationRunner] has slept two seconds after each of them, the
    last one included, closes the pool and returns the error of the third
    ping; a project without connection string is refused before any pool
    is opened. *)
Theorem X13_three_failed_pings_close_the_pool :
  forall net p,
    let connStr := Projects.GetDatabaseConnectionString p in
    (connStr = EmptyString ->
     Runner.NewMigrationRunner net p
     = (inl "no database connection string available"%string, []))
    /\ (forall e0 e1 e2,
           connStr <> EmptyString ->
           Runner.openFails net connStr = None ->
           Runner.pingOutcome net connStr 0%nat = Some e0 ->
           Runner.pingOutcome net connStr 1%nat = Some e1 ->
           Runner.pingOutcome net connStr 2%nat = Some e2 ->
           Runner.NewMigrationRunner net p
           = (inl ("failed to connect to database after retries: " ++ e2)%string,
              [Runner.EvOpen connStr; Runner.EvLimits 180 5 2;
               Runner.EvPing; Runner.EvSleep 2; Runner.EvPing; Runner.EvSleep 2;
               Runner.EvPing; Runner.EvSleep 2; Runner.EvClose])).
Proof.
  intros net p connStr. unfold Runner.NewMigrationRunner. fold connStr. split.
  - intros ->. reflexivity.
  - intros e0 e1 e2 Hc Ho H0 H1 H2.
    apply nonEmpty_true in Hc. rewrite Hc, Ho. cbn [negb].
    rewrite pingRetry_three, H0, H1, H2. reflexivity.
Qed.

Lemma X13_three_failed_pings_close_the_pool_witness :
  let net := Runner.mkNetwork (fun _ => None) (fun _ _ => Some "refused"%string) in
  let p := Projects.mkProject EmptyString EmptyString EmptyString "eu" EmptyString 0 EmptyString EmptyString "pw" "ref" EmptyString EmptyString EmptyString in
  fst (Runner.NewMigrationRunner net p)
  = inl "failed to connect to database after retries: refused"%string
  /\ Runner.sleptSeconds (snd (Runner.NewMigrationRunner net p)) = 6%Z.
Proof.
  cbv zeta.
  pose proof (proj2 (X13_three_failed_pings_close_the_pool
                (Runner.mkNetwork (fun _ => None) (fun _ _ => Some "refused"%string))
                (Projects.mkProject EmptyString EmptyString EmptyString "eu" EmptyString 0 EmptyString EmptyString "pw" "ref" EmptyString EmptyString EmptyString))
                "refused"%string "refused"%string "refused"%string
                ltac:(discriminate) eq_refl eq_refl eq_refl eq_refl) as H.
  rewrite H. split; reflexivity.
Defined.

(* ================================================================== *)
(** * The management API client *)
(* ================================================================== *)

Module ClientFacts.

Local Open Scope string_scope.

Lemma collectKeys_app (a b : list (string * string)) (r : Client.ProjectAPIKeys) :
  Client.collectKeys (a ++ b) r = Client.collectKeys b (Client.collectKeys a r).
Proof.
  revert r. induction a as [|[name key] a IH]; intros r; cbn; auto.
  destruct (String.eqb name "anon"); auto.
  destruct (String.eqb name "service_role"); auto.
Qed.

Lemma collectKeys_anon_kept (keys : list (string * string)) :
  forall r,
    (forall e, In e keys -> fst e <> "anon") ->
    Client.AnonKey (Client.collectKeys keys r) = Client.AnonKey r.
Proof.
  induction keys as [|[name key] keys IH]; intros r H; cbn; auto.
  assert (Hn : name <> "anon") by (apply (H (name, key)); now left).
  apply String.eqb_neq in Hn. rewrite Hn.
  destruct (String.eqb name "service_role"); rewrite IH; auto;
    intros e He; apply H; now right.
Qed.

Lemma collectKeys_service_kept (keys : list (string * string)) :
  forall r,
    (forall e, In e keys -> fst e <> "service_role") ->
    Client.ServiceKey (Client.collectKeys keys r) = Client.ServiceKey r.
Proof.
  induction keys as [|[name key] keys IH]; intros r H; cbn; auto.
  assert (Hn : name <> "service_role") by (apply (H (name, key)); now left).
  apply String.eqb_neq in Hn. rewrite Hn.
  destruct (String.eqb name "anon"); rewrite IH; auto;
    intros e He; apply H; now right.
Qed.

End ClientFacts.

Import ClientFacts.

(** X14.  [GetProjectAPIKeys] keeps, for each of the names anon and
    service_role, the key of the last entry of that name in the response,
    and the empty string when there is none; entries of other names change
    nothing. *)
Theorem X14_last_key_of_a_name_wins :
  (forall keys,
      (forall e, In e keys -> fst e <> "anon"%string) ->
      Client.AnonKey (Client.decodeKeys keys) = EmptyString)
  /\ (forall keys,
         (forall e, In e keys -> fst e <> "service_role"%string) ->
         Client.ServiceKey (Client.decodeKeys keys) = EmptyString)
  /\ (forall pre key post,
         (forall e, In e post -> fst e <> "anon"%string) ->
         Client.AnonKey (Client.decodeKeys (pre ++ ("anon"%string, key) :: post)) = key)
  /\ (forall pre key post,
         (forall e, In e post -> fst e <> "service_role"%string) ->
         Client.ServiceKey
           (Client.decodeKeys (pre ++ ("service_role"%string, key) :: post)) = key).
Proof.
  unfold Client.decodeKeys. repeat split.
  - intros keys H. now rewrite collectKeys_anon_kept.
  - intros keys H. now rewrite collectKeys_service_kept.
  - intros pre key post H. rewrite collectKeys_app. cbn.
    now rewrite collectKeys_anon_kept.
  - intros pre key post H. rewrite collectKeys_app. cbn.
    now rewrite collectKeys_service_kept.
Qed.

Lemma X14_last_key_of_a_name_wins_witness :
  Client.AnonKey
    (Client.decodeKeys [("anon", "old"); ("other", "x"); ("anon", "new");
                        ("service_role", "s")]%string)
  = "new"%string.
Proof.
  refine (proj1 (proj2 (proj2 X14_last_key_of_a_name_wins))
                [("anon", "old"); ("other", "x")]%string "new"%string
                [("service_role", "s")]%string _).
  intros e [<-|[]]. discriminate.
Defined.

Lemma waitLoop_sound (getProject : nat -> Client.Poll) (deadline : Z) :
  (forall i, (0 <= Client.took (getProject i))%Z
             /\ (0 <= Client.overslept (getProject i))%Z) ->
  forall fuel n now checkInterval,
    (exists j, (0 <= j <= 5)%Z /\ checkInterval = ((5 + 2 * j) * Client.second)%Z) ->
    (1 <= fuel)%nat ->
    (deadline - now <= 5 * Client.second * (Z.of_nat fuel - 1))%Z ->
    let out := Client.waitLoop getProject fuel n now deadline checkInterval in
    fst (fst out) <> Client.OutOfFuel
    /\ (n <= snd (fst out) <= n + fuel - 1)%nat
    /\ Forall (fun s => (5 * Client.second <= s <= 15 * Client.second)%Z) (snd out)
    /\ (forall p, fst (fst out) = Client.Ready p ->
                  Projects.Status p = "ACTIVE_HEALTHY"%string).
Proof.
  intros Henv. induction fuel as [|f IH]; intros n now ci (j & Hj & Hci) Hf Hd;
    [lia|].
  cbn [Client.waitLoop]. destruct (now <? deadline)%Z eqn:Enow.
  2:{ cbn. repeat split; try lia; try discriminate. constructor. }
  apply Z.ltb_lt in Enow.
  assert (Hf1 : (1 <= f)%nat) by (unfold Client.second in *; lia).
  destruct (Henv n) as [Ht Ho].
  assert (Hagain : forall ci',
             (exists j', (0 <= j' <= 5)%Z /\ ci' = ((5 + 2 * j') * Client.second)%Z) ->
             let out := (let '(r, calls, sleeps) :=
                           Client.waitLoop getProject f (S n)
                             (now + Client.took (getProject n) + ci
                              + Client.overslept (getProject n))%Z deadline ci' in
                         (r, calls, ci :: sleeps)) in
             fst (fst out) <> Client.OutOfFuel
             /\ (n <= snd (fst out) <= n + S f - 1)%nat
             /\ Forall (fun s => (5 * Client.second <= s <= 15 * Client.second)%Z)
                       (snd out)
             /\ (forall p, fst (fst out) = Client.Ready p ->
                           Projects.Status p = "ACTIVE_HEALTHY"%string)).
  { intros ci' Hci'.
    specialize (IH (S n) (now + Client.took (getProject n) + ci
                          + Client.overslept (getProject n))%Z ci' Hci' Hf1).
    assert (Hd' : (deadline - (now + Client.took (getProject n) + ci
                               + Client.overslept (getProject n))
                   <= 5 * Client.second * (Z.of_nat f - 1))%Z).
    { unfold Client.second in *. lia. }
    specialize (IH Hd'). cbv zeta in IH.
    destruct (Client.waitLoop getProject f (S n) _ deadline ci') as [[r calls] sleeps].
    cbn [fst snd] in *. destruct IH as (H1 & H2 & H3 & H4).
    split; [exact H1|]. split; [lia|]. split; [|exact H4].
    constructor; [|exact H3]. subst ci. unfold Client.second. lia. }
  destruct (Client.polled (getProject n)) as [proj|].
  - destruct (String.eqb (Projects.Status proj) "ACTIVE_HEALTHY") eqn:Es.
    + cbn. repeat split; try lia; try discriminate; [constructor|].
      intros p [= <-]. now apply String.eqb_eq.
    + destruct (_ || _).
      * cbn. repeat split; try lia; try discriminate. constructor.
      * apply Hagain. destruct (ci <? 15 * Client.second)%Z eqn:Eci.
        -- apply Z.ltb_lt in Eci. exists (j + 1)%Z.
           unfold Client.second in *. split; lia.
        -- exists j. auto.
  - apply Hagain. exists j. auto.
Qed.

(** X15.  [WaitForProject] always comes to an end: with calls and sleeps
    that take no negative time it makes at most one call more than the
    timeout holds five-second periods, it never sleeps less than 5 or more
    than 15 seconds between two calls, and a project it returns has the
    status ACTIVE_HEALTHY.  With a timeout that is not positive it makes no
    call at all and reports the timeout. *)
Theorem X15_polling_is_bounded :
  forall (getProject : nat -> Client.Poll) now timeout,
    (forall i, (0 <= Client.took (getProject i))%Z
               /\ (0 <= Client.overslept (getProject i))%Z) ->
    let out := Client.WaitForProject getProject now timeout in
    fst (fst out) <> Client.OutOfFuel
    /\ (snd (fst out) <= Z.to_nat (timeout / (5 * Client.second)) + 1)%nat
    /\ Forall (fun s => (5 * Client.second <= s <= 15 * Client.second)%Z) (snd out)
    /\ (forall p, fst (fst out) = Client.Ready p ->
                  Projects.Status p = "ACTIVE_HEALTHY"%string)
    /\ ((timeout <= 0)%Z ->
        out = (Client.TimedOut "timeout waiting for project to become ready",
               0%nat, [])).
Proof.
  intros getProject now timeout Henv out. unfold out, Client.WaitForProject.
  assert (Hfuel : Client.fuelFor timeout
                  = S (S (Z.to_nat (timeout / (5 * Client.second))))).
  { unfold Client.fuelFor. lia. }
  assert (Hd : (now + timeout - now
                <= 5 * Client.second * (Z.of_nat (Client.fuelFor timeout) - 1))%Z).
  { rewrite Hfuel. change (5 * Client.second)%Z with 5000000000%Z.
    destruct (Z.le_gt_cases 0 timeout) as [Hpos|Hneg].
    - pose proof (Z.div_mod timeout 5000000000 ltac:(lia)).
      pose proof (Z.mod_pos_bound timeout 5000000000 ltac:(lia)).
      pose proof (Z.div_pos timeout 5000000000 Hpos ltac:(lia)).
      rewrite !Nat2Z.inj_succ, Z2Nat.id by assumption. lia.
    - lia. }
  destruct (@waitLoop_sound getProject (now + timeout)%Z Henv
              (Client.fuelFor timeout) 0%nat now (5 * Client.second)%Z)
    as (H1 & H2 & H3 & H4); auto.
  { exists 0%Z. split; [lia|reflexivity]. }
  { rewrite Hfuel. lia. }
  repeat split; auto.
  - clear - H2 Hfuel. lia.
  - intros Ht. rewrite Hfuel. cbn [Client.waitLoop].
    replace (now <? now + timeout)%Z with false; auto.
    symmetry. apply Z.ltb_ge. lia.
Qed.

Lemma X15_polling_is_bounded_witness :
  let ready :=
    Projects.mkProject EmptyString EmptyString EmptyString EmptyString
                       "ACTIVE_HEALTHY" 0 EmptyString EmptyString EmptyString
                       "ref" EmptyString EmptyString EmptyString in
  let getProject := fun i : nat =>
    if Nat.ltb i 2 then Client.mkPoll None 1 0 else Client.mkPoll (Some ready) 1 0 in
  (snd (fst (Client.WaitForProject getProject 0 (300 * Client.second))) <= 61)%nat
  /\ fst (fst (Client.WaitForProject getProject 0 (300 * Client.second)))
     = Client.Ready ready.
Proof.
  cbv zeta. split; [|vm_compute; reflexivity].
  refine (proj1 (proj2 (@X15_polling_is_bounded _ 0%Z (300 * Client.second)%Z _))).
  intros i. destruct (Nat.ltb i 2); cbn; lia.
Defined.

Module PasswordFacts.

Local Open Scope string_scope.

(** Every index below the length of the alphabet holds a byte of it, and
    the bytes of the alphabet are letters and digits. *)
Lemma charset_get (n : nat) :
  (n < String.length Client.charset)%nat ->
  exists ch, String.get n Client.charset = Some ch
             /\ Client.inCharset ch = true /\ Client.isWordByte ch = true.
Proof.
  intros H. cbn in H.
  do 62 (destruct n as [|n]; [eexists; repeat split; reflexivity|]).
  lia.
Qed.

Lemma randomLoop_ok (nanos : nat -> Z) :
  (forall i, (0 <= nanos i)%Z) ->
  forall remaining i,
    exists s, Client.randomLoop nanos remaining i = Some s
              /\ String.length s = remaining
              /\ Client.allBytes Client.inCharset s = true
              /\ Client.allBytes Client.isWordByte s = true.
Proof.
  intros Hn. induction remaining as [|r IH]; intros i.
  - exists EmptyString. cbn. auto.
  - cbn [Client.randomLoop].
    pose proof (Z.rem_bound_pos (nanos i) 62 (Hn i) ltac:(lia)) as Hb.
    change (Z.of_nat (String.length Client.charset)) with 62%Z.
    replace (Z.rem (nanos i) 62 <? 0)%Z with false
      by (symmetry; apply Z.ltb_ge; lia).
    destruct (@charset_get (Z.to_nat (Z.rem (nanos i) 62)))
      as (ch & Hg & Hc & Hw).
    { change (String.length Client.charset) with 62%nat. lia. }
    rewrite Hg. destruct (IH (S i)) as (s & Hs & Hl & Ha & Hw').
    rewrite Hs. exists (String ch s). cbn [Client.allBytes String.length].
    rewrite Hl, Hc, Ha, Hw, Hw'. auto.
Qed.

Lemma allBytes_app (p : ascii -> bool) (a b : string) :
  Client.allBytes p (a ++ b) = Client.allBytes p a && Client.allBytes p b.
Proof.
  induction a as [|c a IH]; cbn; auto. now rewrite IH, andb_assoc.
Qed.

(** The digits of a number are word bytes. *)
Lemma uint_word (d : Decimal.uint) :
  Client.allBytes Client.isWordByte (NilEmpty.string_of_uint d) = true.
Proof. induction d; cbn; auto. Qed.

Lemma prefix_app (a b : string) : prefix a (a ++ b) = true.
Proof.
  induction a as [|c a IH]; cbn.
  - now destruct b.
  - destruct (ascii_dec c c); [exact IH|congruence].
Qed.

End PasswordFacts.

Import PasswordFacts.

(** X16.  With a clock that reads no negative time, [randomString]
    returns exactly as many bytes as asked for, each of them taken from
    its alphabet of 62 letters and digits; it panics on a negative length.
    Nothing makes the bytes differ: when the clock readings agree modulo
    62 the string repeats one byte. *)
Theorem X16_random_string_shape :
  forall (nanos : nat -> Z),
    (forall length, (length < 0)%Z -> Client.randomString nanos length = None)
    /\ ((forall i, (0 <= nanos i)%Z) ->
        forall length,
          (0 <= length)%Z ->
          exists s, Client.randomString nanos length = Some s
                    /\ String.length s = Z.to_nat length
                    /\ Client.allBytes Client.inCharset s = true)
    /\ (forall k ch (n : nat),
           (forall i, Z.rem (nanos i) 62 = Z.of_nat k) ->
           String.get k Client.charset = Some ch ->
           Client.randomString nanos (Z.of_nat n)
           = Some (string_of_list_ascii (repeat ch n))).
Proof.
  intros nanos. split; [|split].
  - intros length H. unfold Client.randomString.
    apply Z.ltb_lt in H. now rewrite H.
  - intros Hn length H. unfold Client.randomString.
    replace (length <? 0)%Z with false by (symmetry; apply Z.ltb_ge; lia).
    destruct (randomLoop_ok nanos Hn (Z.to_nat length) 0) as (s & Hs & Hl & Ha & _).
    eauto.
  - intros k ch n Hrem Hget. unfold Client.randomString.
    replace (Z.of_nat n <? 0)%Z with false by (symmetry; apply Z.ltb_ge; lia).
    rewrite Nat2Z.id. generalize 0%nat.
    induction n as [|n IH]; intros i; cbn [Client.randomLoop repeat]; auto.
    change (Z.of_nat (String.length Client.charset)) with 62%Z.
    rewrite Hrem.
    replace (Z.of_nat k <? 0)%Z with false by (symmetry; apply Z.ltb_ge; lia).
    rewrite Nat2Z.id, Hget, IH. reflexivity.
Qed.

Lemma X16_random_string_shape_witness :
  exists s, Client.randomString (fun i => Z.of_nat (7 * i)) 16 = Some s
            /\ String.length s = 16%nat
            /\ Client.allBytes Client.inCharset s = true.
Proof.
  refine (proj1 (proj2 (X16_random_string_shape (fun i => Z.of_nat (7 * i))))
                _ 16%Z _).
  - intros i. lia.
  - lia.
Defined.

(** X17.  With a clock after 1970, [generateSecurePassword] returns a
    password that starts with Sup4b4se_ and is made of letters, digits and
    underscores only, so that it holds none of the separators of a
    connection string. *)
Theorem X17_password_is_made_of_word_bytes :
  forall unix (nanos : nat -> Z),
    (0 <= unix)%Z -> (forall i, (0 <= nanos i)%Z) ->
    exists pw, Client.generateSecurePassword unix nanos = Some pw
               /\ prefix "Sup4b4se_" pw = true
               /\ Client.allBytes Client.isWordByte pw = true.
Proof.
  intros unix nanos Hu Hn. unfold Client.generateSecurePassword, Client.randomString.
  change (16 <? 0)%Z with false. cbv iota.
  destruct (randomLoop_ok nanos Hn (Z.to_nat 16) 0) as (s & Hs & _ & _ & Hw).
  rewrite Hs. eexists. split; [reflexivity|]. split; [apply prefix_app|].
  unfold Client.decimalZ.
  replace (unix <? 0)%Z with false by (symmetry; apply Z.ltb_ge; lia).
  rewrite !allBytes_app. unfold decimal. rewrite uint_word, Hw. reflexivity.
Qed.

Lemma X17_password_is_made_of_word_bytes_witness :
  exists pw, Client.generateSecurePassword 1700000000 (fun i => Z.of_nat i) = Some pw
             /\ prefix "Sup4b4se_" pw = true
             /\ Client.allBytes Client.isWordByte pw = true.
Proof.
  refine (@X17_password_is_made_of_word_bytes 1700000000 (fun i => Z.of_nat i) _ _).
  - lia.
  - intros i. lia.
Defined.

(* ================================================================== *)
(** * Configuration and the API key check *)
(* ================================================================== *)

Lemma getEnv_default (env : Config.Env) (key def : string) :
  env key = None \/ env key = Some EmptyString ->
  Config.getEnv env key def = def.
Proof.
  intros [H|H]; unfold Config.getEnv, Config.Getenv; rewrite H; reflexivity.
Qed.

Lemma getEnv_set (env : Config.Env) (key def v : string) :
  env key = Some v -> v <> EmptyString -> Config.getEnv env key def = v.
Proof.
  intros H Hv. unfold Config.getEnv, Config.Getenv. rewrite H.
  apply nonEmpty_true in Hv. now rewrite Hv.
Qed.

Lemma getEnv_nonEmpty (env : Config.Env) (key def : string) :
  def <> EmptyString -> Config.getEnv env key def <> EmptyString.
Proof.
  intros Hd. unfold Config.getEnv.
  destruct (Projects.nonEmpty (Config.Getenv env key)) eqn:E; cbn; auto.
  now apply nonEmpty_true.
Qed.

(** X18.  The API key the server checks is never empty: when API_KEY is
    unset or set to the empty string it is the built-in development key.
    A request passes the check exactly when its X-API-Key header equals
    the configured key; a request without the header never passes. *)
Theorem X18_api_key_check :
  forall env : Config.Env,
    let key := Config.APIKey (Config.loadConfig env) in
    key <> EmptyString
    /\ (env "API_KEY"%string = None \/ env "API_KEY"%string = Some EmptyString ->
        key = "dev-api-key-change-in-production"%string)
    /\ (forall header, Config.authMiddleware key header = Config.AuthNext
                       <-> header = key)
    /\ (forall valid, Config.authMiddleware valid EmptyString <> Config.AuthNext).
Proof.
  intros env key. unfold key. cbn [Config.loadConfig Config.APIKey].
  assert (Hne : Config.getEnv env "API_KEY" "dev-api-key-change-in-production"
                <> EmptyString).
  { apply getEnv_nonEmpty. discriminate. }
  split; [exact Hne|]. split; [apply getEnv_default|]. split.
  - intros header. unfold Config.authMiddleware.
    destruct header as [|a h]; cbn [Projects.nonEmpty negb].
    + split; [discriminate|]. intros H. now rewrite <- H in Hne.
    + destruct (String.eqb (String a h) _) eqn:E; cbn [negb].
      * apply String.eqb_eq in E. tauto.
      * apply String.eqb_neq in E. split; [discriminate|tauto].
  - intros valid. discriminate.
Qed.

(** X19.  The configuration read from the environment passes [Validate]
    exactly when SUPABASE_ACCESS_TOKEN and SUPABASE_ORGANIZATION_ID are
    both set to non-empty values; a variable set to the empty string
    counts as unset, and a missing token is reported before a missing
    organization. *)
Theorem X19_config_is_valid_iff_both_variables_are_set :
  forall env : Config.Env,
    (Config.Validate (Config.loadConfig env) = None
     <-> (exists t, env "SUPABASE_ACCESS_TOKEN"%string = Some t /\ t <> EmptyString)
         /\ (exists o, env "SUPABASE_ORGANIZATION_ID"%string = Some o
                       /\ o <> EmptyString))
    /\ (env "SUPABASE_ACCESS_TOKEN"%string = None
        \/ env "SUPABASE_ACCESS_TOKEN"%string = Some EmptyString ->
        Config.Validate (Config.loadConfig env)
        = Some "SUPABASE_ACCESS_TOKEN is required"%string).
Proof.
  intros env. unfold Config.Validate.
  cbn [Config.loadConfig Config.SupabaseAccessToken Config.SupabaseOrgID].
  unfold Config.getEnv, Config.Getenv.
  destruct (env "SUPABASE_ACCESS_TOKEN"%string) as [[|a t]|];
    destruct (env "SUPABASE_ORGANIZATION_ID"%string) as [[|b o]|];
    cbn; (split; [split|]); try discriminate; try tauto;
    try (intros [[t' [H Ht]] [o' [H' Ho]]]; congruence);
    try (intros _; split; eexists; split; try reflexivity; discriminate);
    try (intros [H|H]; discriminate).
Qed.

(* ================================================================== *)
(** * The schema handler *)
(* ================================================================== *)

Lemma apply_nil_error_is_success upperTable (srv : Server) elapsed sql (c : Conn srv) :
  snd (fst (ApplyMigration upperTable elapsed sql c)) = None
  <-> Success (fst (fst (ApplyMigration upperTable elapsed sql c))) = true.
Proof.
  destruct (apply_outcomes upperTable elapsed sql c)
    as [(msg & Hv & E)|[(e & Hv & Hb & E)
       |[(pre & s & post & w & t & n & e & Hv & Hb & Hs & Hrun & He & E)
       |[(w & t & n & e & Hv & Hb & Hrun & Hc & E)
       |(w & t & n & Hv & Hb & Hrun & Hc & E)]]]];
    rewrite E; cbn; split; auto; discriminate.
Qed.

(** What [NewMigrationRunner] leaves of the pool: on failure nothing was
    opened, or the open failed, or the pool was closed last and once; on
    success it is open. *)
Lemma runner_events (net : Runner.Network) (p : Projects.Project) :
  match Runner.NewMigrationRunner net p with
  | (inl _, evs) =>
      evs = [] \/ (exists s, evs = [Runner.EvOpen s])
      \/ (exists l, evs = l ++ [Runner.EvClose] /\ ~ In Runner.EvClose l)
  | (inr _, evs) => ~ In Runner.EvClose evs
  end.
Proof.
  unfold Runner.NewMigrationRunner.
  destruct (negb _); [now left|].
  destruct (Runner.openFails net _); [right; left; eauto|].
  rewrite pingRetry_three.
  destruct (Runner.pingOutcome net _ 0%nat);
    [destruct (Runner.pingOutcome net _ 1%nat);
     [destruct (Runner.pingOutcome net _ 2%nat)|]|]; cbn [app].
  - right. right.
    exists [Runner.EvOpen (Projects.GetDatabaseConnectionString p);
            Runner.EvLimits 180 5 2; Runner.EvPing; Runner.EvSleep 2;
            Runner.EvPing; Runner.EvSleep 2; Runner.EvPing; Runner.EvSleep 2].
    split; [reflexivity|].
    intros H. cbn in H. repeat (destruct H as [H|H]; try discriminate). exact H.
  - intros H. cbn in H. repeat (destruct H as [H|H]; try discriminate). exact H.
  - intros H. cbn in H. repeat (destruct H as [H|H]; try discriminate). exact H.
  - intros H. cbn in H. repeat (destruct H as [H|H]; try discriminate). exact H.
Qed.

(** X20.  [ApplySchema] answers 200 exactly when it sends a migration
    result, and a result it sends always says success: it is sent only
    when the request was read, the project is stored with the status
    ACTIVE_HEALTHY, a runner was created and the migration returned no
    error.  Every other answer is an error body with status 400, 404 or
    500. *)
Theorem X20_schema_answer_200_means_success :
  forall upperTable (srv : Server) elapsed (target : string -> Conn srv)
         bound stored net,
    let out := Handlers.ApplySchema upperTable elapsed target bound stored net in
    let resp := fst (fst out) in
    (Handlers.status resp = 200%Z <-> exists r, Handlers.body resp = Handlers.ResultBody r)
    /\ (forall r,
           Handlers.body resp = Handlers.ResultBody r ->
           Success r = true
           /\ exists sql sp runner,
               bound = inr sql /\ stored = inr sp
               /\ Stored.Status sp = "ACTIVE_HEALTHY"%string
               /\ fst (Runner.NewMigrationRunner net (Handlers.runnerProject sp))
                  = inr runner
               /\ fst (ApplyMigration upperTable elapsed sql
                                      (target (Runner.db runner)))
                  = (r, None))
    /\ (Handlers.status resp = 200%Z \/ Handlers.status resp = 400%Z
        \/ Handlers.status resp = 404%Z \/ Handlers.status resp = 500%Z).
Proof.
  intros upperTable srv elapsed target bound stored net out resp.
  unfold resp, out, Handlers.ApplySchema.
  destruct bound as [err|sql].
  { cbn. repeat split; try discriminate; auto.
    intros [r H]. discriminate. }
  destruct stored as [err|sp].
  { cbn. repeat split; try discriminate; auto.
    intros [r H]. discriminate. }
  destruct (String.eqb (Stored.Status sp) "ACTIVE_HEALTHY") eqn:Es; cbn [negb].
  2:{ cbn. repeat split; try discriminate; auto.
      intros [r H]. discriminate. }
  apply String.eqb_eq in Es.
  destruct (Runner.NewMigrationRunner net (Handlers.runnerProject sp))
    as [[err|runner] evs] eqn:En.
  { cbn. repeat split; try discriminate; auto.
    intros [r H]. discriminate. }
  pose proof (apply_nil_error_is_success upperTable elapsed sql
                (target (Runner.db runner))) as Hok.
  destruct (ApplyMigration upperTable elapsed sql (target (Runner.db runner)))
    as [[result err] c'] eqn:Ea.
  cbn [fst snd] in Hok. destruct err as [e|]; cbn.
  - repeat split; try discriminate; auto. intros [r H]. discriminate.
  - split; [|split].
    + split; [intros _; eauto|reflexivity].
    + intros r H. injection H as <-. split; [now apply Hok|].
      exists sql, sp, runner. repeat split; auto.
      * now rewrite En.
      * now rewrite Ea.
    + auto.
Qed.

(** X21.  [ApplySchema] touches no database when the request cannot be
    read, the project is not stored or its status is not ACTIVE_HEALTHY,
    and it reports a stored project without reference or password as a
    connection failure before opening anything.  Whatever happens, a pool
    it opened is closed exactly once, as the last thing done to it. *)
Theorem X21_schema_handler_closes_what_it_opens :
  forall upperTable (srv : Server) elapsed (target : string -> Conn srv)
         bound stored net,
    let out := Handlers.ApplySchema upperTable elapsed target bound stored net in
    let evs := snd (fst out) in
    ((forall sql sp, bound = inr sql -> stored = inr sp ->
                     Stored.Status sp <> "ACTIVE_HEALTHY"%string) ->
     evs = [] /\ snd out = None)
    /\ (forall sql sp,
           bound = inr sql -> stored = inr sp ->
           Stored.Status sp = "ACTIVE_HEALTHY"%string ->
           Stored.ProjectRef sp = EmptyString \/ Stored.DBPassword sp = EmptyString ->
           out = (Handlers.mkResponse 500
                    (Handlers.ErrorBody "MIGRATION_FAILED"
                       "Failed to connect to database"
                       "no database connection string available"),
                  [], None))
    /\ (evs = [] \/ (exists s, evs = [Runner.EvOpen s])
        \/ (exists l, evs = l ++ [Runner.EvClose] /\ ~ In Runner.EvClose l)).
Proof.
  intros upperTable srv elapsed target bound stored net out evs.
  unfold evs, out, Handlers.ApplySchema. split; [|split].
  - intros H. destruct bound as [err|sql]; [now cbn|].
    destruct stored as [err|sp]; [now cbn|].
    specialize (H sql sp eq_refl eq_refl). apply String.eqb_neq in H.
    rewrite H. now cbn.
  - intros sql sp -> -> Hs Hmissing.
    rewrite Hs. cbn [String.eqb negb].
    replace (String.eqb "ACTIVE_HEALTHY" "ACTIVE_HEALTHY") with true by reflexivity.
    cbn [negb].
    assert (Hc : Projects.GetDatabaseConnectionString (Handlers.runnerProject sp)
                 = EmptyString).
    { unfold Projects.GetDatabaseConnectionString, Handlers.runnerProject. cbn.
      destruct Hmissing as [-> | ->]; cbn; auto.
      destruct (Stored.ProjectRef sp); reflexivity. }
    unfold Runner.NewMigrationRunner. rewrite Hc. reflexivity.
  - destruct bound as [err|sql]; [now left|].
    destruct stored as [err|sp]; [now left|].
    destruct (negb _); [now left|].
    pose proof (runner_events net (Handlers.runnerProject sp)) as Hr.
    destruct (Runner.NewMigrationRunner net (Handlers.runnerProject sp))
      as [[err|runner] es].
    + exact Hr.
    + destruct (ApplyMigration upperTable elapsed sql (target (Runner.db runner)))
        as [[result err] c'].
      right. right. exists es. destruct err; cbn; auto.
Qed.

(* ================================================================== *)
(** * The splitter inside its modes *)
(* ================================================================== *)

Module ModeFacts.

Local Open Scope N_scope.



(** A rune that cannot end the mode the splitter is in is copied. *)
Lemma step_inside (st : Scanner) (char : rune) (rest : Str) :
  (inString st = true /\ char <> r_quote)
  \/ (inComment st = true /\ char <> r_newline)
  \/ (inDollarQuote st = true /\ char <> r_dollar) ->
  step st char rest = (write st char, false).
Proof.
  destruct st as [ss b s c d tg]. cbn [inString inComment inDollarQuote].
  intros H.
  assert (Hcase : (s = true /\ (char =? r_quote) = false)
                  \/ (c = true /\ (char =? r_newline) = false)
                  \/ (d = true /\ (char =? r_dollar) = false)).
  { destruct H as [[Hm Hc]|[[Hm Hc]|[Hm Hc]]]; apply N.eqb_neq in Hc; auto. }
  clear H. unfold step, dollarBlock, commentBlock.
  destruct (char =? r_dollar) eqn:E1; destruct (char =? r_quote) eqn:E2;
    destruct (char =? r_newline) eqn:E3; destruct (char =? r_semi) eqn:E4;
    destruct (char =? r_dash) eqn:E5;
    try (repeat match goal with
                | E : (char =? _) = true |- _ => apply N.eqb_eq in E
                end; subst; discriminate);
    destruct s, c, d; cbn;
    try reflexivity;
    try (destruct Hcase as [[? ?]|[[? ?]|[? ?]]]; discriminate);
    repeat (break_if; cbn; try reflexivity).
Qed.








End ModeFacts.

Import ModeFacts.






Lemma exclusive_inComment st :
  exclusive st = true -> inComment st = true ->
  inString st = false /\ inDollarQuote st = false.
Proof.
  unfold exclusive. destruct (inString st), (inComment st), (inDollarQuote st);
    auto; discriminate.
Qed.

(** X24.  Line comments.  Outside every mode two dashes in a row start a
    comment and a single dash starts nothing; inside a comment a semicolon
    is copied and ends no statement, in every run on every script; a
    newline ends the comment.  Two dashes inside a string are part of the
    string. *)
Theorem X24_line_comments :
  (forall sql st rest,
      Reach sql st (r_semi :: rest) -> inComment st = true ->
      step st r_semi rest = (write st r_semi, false)
      /\ Reach sql (write st r_semi) rest
      /\ statements (write st r_semi) = statements st)
  /\ (forall st rest,
         normal st = true ->
         step st r_dash (r_dash :: rest) = (write (setComment st true) r_dash, false))
  /\ (forall st rest,
         normal st = true -> nextIs rest r_dash = false ->
         step st r_dash rest = (write st r_dash, false))
  /\ (forall sql st rest,
         Reach sql st (r_newline :: rest) -> inComment st = true ->
         step st r_newline rest = (write (setComment st false) r_newline, false))
  /\ splitSQLStatements
       (runes "SELECT 1 -- a; b" ++ [r_newline] ++ runes "; SELECT '--'; SELECT 2")
     = [runes "SELECT 1 -- a; b"; runes "SELECT '--'"; runes "SELECT 2"].
Proof.
  split; [|split; [|split; [|split]]].
  - intros sql st rest HR Hc.
    assert (E : step st r_semi rest = (write st r_semi, false)).
    { apply step_inside. right. left. split; [assumption|discriminate]. }
    repeat split; auto. eapply reach_next; eauto.
  - intros st rest Hn. destruct st as [ss b s c d tg].
    unfold normal in Hn. cbn in Hn. destruct s, c, d; try discriminate.
    reflexivity.
  - intros st rest Hn Hnext. apply step_copy; auto; try discriminate.
  - intros sql st rest HR Hc.
    destruct (exclusive_inComment _ (Reach_exclusive HR) Hc) as [Hs Hd].
    destruct st as [ss b s c d tg]. cbn in Hs, Hd, Hc. subst. reflexivity.
  - vm_compute. reflexivity.
Qed.

Lemma X12_runner_is_created_iff_a_ping_succeeds_witness :
  let net := Runner.mkNetwork
               (fun _ => None)
               (fun _ i => if Nat.eqb i 1 then None else Some "refused"%string) in
  let p := Projects.mkProject EmptyString EmptyString EmptyString "eu" EmptyString 0
                              EmptyString EmptyString "pw" "ref" EmptyString
                              EmptyString EmptyString in
  Runner.countPings (snd (Runner.NewMigrationRunner net p)) = 2%nat
  /\ Runner.sleptSeconds (snd (Runner.NewMigrationRunner net p)) = 2%Z.
Proof.
  cbv zeta.
  pose proof (proj2 (proj2 (X12_runner_is_created_iff_a_ping_succeeds
     (Runner.mkNetwork
        (fun _ => None)
        (fun _ i => if Nat.eqb i 1 then None else Some "refused"%string))
     (Projects.mkProject EmptyString EmptyString EmptyString "eu" EmptyString 0
                         EmptyString EmptyString "pw" "ref" EmptyString
                         EmptyString EmptyString)))
     1%nat ltac:(discriminate) eq_refl ltac:(lia) eq_refl) as H.
  destruct H as (_ & Hp & Hs & _).
  - intros j Hj. destruct j as [|j]; [discriminate|lia].
  - split; [exact Hp|exact Hs].
Defined.

Lemma X20_schema_answer_200_means_success_witness :
  let stored :=
    Stored.mkStored "id1" "ref" "https://ref.supabase.co" "eu" "anon" "service"
                    "pw" "ACTIVE_HEALTHY" 0 0 in
  let net := Runner.mkNetwork (fun _ => None) (fun _ _ => None) in
  let out :=
    Handlers.ApplySchema plainTable 7 (fun _ => idle demoServer [])
                         (inr (runes "CREATE TABLE a (id int); BOGUS"))
                         (inr stored) net in
  Handlers.status (fst (fst out)) = 500%Z
  /\ ~ (exists r, Handlers.body (fst (fst out)) = Handlers.ResultBody r).
Proof.
  cbv zeta. split; [vm_compute; reflexivity|].
  intros H.
  apply (proj1 (@X20_schema_answer_200_means_success plainTable demoServer 7
                  (fun _ => idle demoServer [])
                  (inr (runes "CREATE TABLE a (id int); BOGUS"))
                  (inr (Stored.mkStored "id1" "ref" "https://ref.supabase.co" "eu"
                                        "anon" "service" "pw" "ACTIVE_HEALTHY" 0 0))
                  (Runner.mkNetwork (fun _ => None) (fun _ _ => None)))) in H.
  vm_compute in H. discriminate H.
Defined.
